(** * deye_sensor.py: sensor decoders and register-range consolidation

    A shallow embedding of [src/deye_sensor.py] and the properties of it
    that the specification states.

    Conventions of the embedding:
    - a Python call that may raise is a computation in [result], carrying
      the exception class;
    - [None] is [option]'s [None];
    - a register snapshot [dict[int, bytearray]] is a [gmap Z (list byte)],
      a set of group names a [gset string], an [int] a [Z];
    - [float] is IEEE 754 binary64, Rocq's primitive [float], so that the
      arithmetic of [read_value] and [write_value] is the one CPython
      performs (the value [0] that the code writes as an [int] literal is
      the float zero, to which Python's comparison and addition convert
      it);
    - [datetime.now()] is an explicit argument [now] of the stateful read,
      and the object a stateful method mutates is returned next to its
      result;
    - string formatting ([format_value], [__str__]) is left out. *)

From Stdlib Require Import ZArith Floats List Bool Lia.
From Stdlib Require Strings.Byte.
From stdpp Require Import gmap strings list.

#[local] Set Warnings "-inexact-float,-register-all".
#[local] Open Scope Z_scope.

(** ** The Python runtime, as far as the module uses it *)

Module Py.

(** Exception classes the module can raise. *)
Inductive exn : Set :=
| AssertionError
| TypeError
| RuntimeError
| OverflowError
| ValueError
| ZeroDivisionError
| IndexError.

Inductive result (A : Type) : Type :=
| Ok (a : A)
| Raise (e : exn).
Arguments Ok {A} a.
Arguments Raise {A} e.

#[export] Instance result_ret : MRet result := fun _ a => Ok a.
#[export] Instance result_bind : MBind result := fun _ _ f m =>
  match m with
  | Ok a => f a
  | Raise e => Raise e
  end.

(** A list comprehension whose element expression may raise: the first
    exception aborts the comprehension. *)
Fixpoint collect {A} (l : list (result A)) : result (list A) :=
  match l with
  | [] => Ok []
  | r :: l' => a ← r; rest ← collect l'; mret (a :: rest)
  end.

(** *** bytes *)

Abbreviation byte := Corelib.Init.Byte.byte.

Definition byte_to_Z (b : byte) : Z := Z.of_N (Byte.to_N b).

Definition byte_of_Z (z : Z) : byte :=
  match Byte.of_N (Z.to_N (z mod 256)) with
  | Some b => b
  | None => Byte.x00
  end.

(** [int.from_bytes(b, "big", signed=False)] *)
Definition from_bytes_unsigned (b : list byte) : Z :=
  fold_left (fun acc x => acc * 256 + byte_to_Z x) b 0.

(** Two's complement reading of a [bits]-wide pattern. *)
Definition twos_complement (bits : Z) (raw : Z) : Z :=
  if (0 <? bits) && (2 ^ (bits - 1) <=? raw) then raw - 2 ^ bits else raw.

(** [int.from_bytes(b, "big", signed=signed)] *)
Definition int_from_bytes (b : list byte) (signed : bool) : Z :=
  let raw := from_bytes_unsigned b in
  if signed then twos_complement (8 * Z.of_nat (length b)) raw else raw.

(** [v.to_bytes(2, "big", signed=signed)]: [OverflowError] outside the
    range of the two bytes. *)
Definition int_to_bytes2 (v : Z) (signed : bool) : result (list byte) :=
  let lo := if signed then - 2 ^ 15 else 0 in
  let hi := if signed then 2 ^ 15 else 2 ^ 16 in
  if (lo <=? v) && (v <? hi)
  then let u := v mod 2 ^ 16 in Ok [byte_of_Z (u / 256); byte_of_Z u]
  else Raise OverflowError.

(** *** floats *)

(** The conversion of an [int] operand in [int * float]: the nearest
    binary64, ties to even.  (CPython raises [OverflowError] where this
    gives an infinity, from 2^1024 - 2^970 on, which takes a bytearray
    of 128 bytes.) *)
Definition int_to_float (z : Z) : float :=
  SF2Prim (binary_normalize 53 1024 z 0 false).

(** [a / b] on floats *)
Definition truediv (a b : float) : result float :=
  if (b =? 0)%float then Raise ZeroDivisionError else Ok (a / b)%float.

(** [int(x)] on a float: truncation toward zero. *)
Definition float_to_int (x : float) : result Z :=
  match Prim2SF x with
  | S754_zero _ => Ok 0
  | S754_infinity _ => Raise OverflowError
  | S754_nan => Raise ValueError
  | S754_finite s m e =>
      let mag := match e with
                 | Z.neg p => Z.pos m / 2 ^ Z.pos p
                 | _ => Z.pos m * 2 ^ e
                 end in
      Ok (if s then - mag else mag)
  end.

(** [round(x)] on a float: the nearest integer, ties to even. *)
Definition float_round (x : float) : result Z :=
  match Prim2SF x with
  | S754_zero _ => Ok 0
  | S754_infinity _ => Raise OverflowError
  | S754_nan => Raise ValueError
  | S754_finite s m e =>
      let mag := match e with
                 | Z.neg p =>
                     let d := 2 ^ Z.pos p in
                     let q := Z.pos m / d in
                     let r := Z.pos m mod d in
                     if (d <? 2 * r) || ((d =? 2 * r) && Z.odd q)
                     then q + 1 else q
                 | _ => Z.pos m * 2 ^ e
                 end in
      Ok (if s then - mag else mag)
  end.

(** *** datetime *)

Record datetime : Set := {
  year : Z;
  month : Z;
  day : Z;
  hour : Z;
  minute : Z;
  second : Z;
  microsecond : Z
}.

(** The calendar day of a timestamp: its date. *)
Definition date (t : datetime) : Z * Z * Z := (year t, month t, day t).

End Py.
Import Py.

(** ** Sensors *)

(** The snapshot the transport hands over. *)
Abbreviation registers := (gmap Z (list byte)).

(** Attributes set by [NamedSensor.__init__]. *)
Record NamedSensor : Type := {
  name : string;
  mqtt_topic_suffix : string;
  unit_ : string;
  print_format : string;
  groups : list string
}.

(** [NamedSensor.__init__]: the assertion on [groups]. *)
Definition NamedSensor_init (name mqtt_topic_suffix unit_ print_format : string)
    (groups : list string) : result NamedSensor :=
  if (0 <? Z.of_nat (length groups))
  then Ok {| name := name; mqtt_topic_suffix := mqtt_topic_suffix;
             unit_ := unit_; print_format := print_format; groups := groups |}
  else Raise AssertionError.

(** Attributes of [SingleRegisterSensor] and its signed-magnitude subclass. *)
Record SingleRegisterSensor : Type := {
  single_named : NamedSensor;
  reg_address : Z;
  factor : float;
  offset : float;
  signed : bool
}.

Definition SingleRegisterSensor_init (name : string) (reg_address : Z)
    (factor offset : float) (signed : bool)
    (mqtt_topic_suffix unit_ print_format : string) (groups : list string)
    : result SingleRegisterSensor :=
  n ← NamedSensor_init name mqtt_topic_suffix unit_ print_format groups;
  mret {| single_named := n; reg_address := reg_address; factor := factor;
          offset := offset; signed := signed |}.

(** Attributes of [DoubleRegisterSensor] and its signed-magnitude subclass. *)
Record DoubleRegisterSensor : Type := {
  double_named : NamedSensor;
  dreg_address : Z;
  dfactor : float;
  doffset : float;
  dsigned : bool;
  low_word_first : bool
}.

Definition DoubleRegisterSensor_init (name : string) (reg_address : Z)
    (factor offset : float) (signed : bool)
    (mqtt_topic_suffix unit_ print_format : string) (groups : list string)
    (low_word_first : bool) : result DoubleRegisterSensor :=
  n ← NamedSensor_init name mqtt_topic_suffix unit_ print_format groups;
  mret {| double_named := n; dreg_address := reg_address; dfactor := factor;
          doffset := offset; dsigned := signed;
          low_word_first := low_word_first |}.

(** The sensors that keep no state between reads, one constructor per
    class.  [DailyResetSensor], which does keep state, wraps one of them
    and is modelled after them. *)
Inductive Sensor : Type :=
| Single (s : SingleRegisterSensor)
| Double (s : DoubleRegisterSensor)
| SignedMagnitudeSingle (s : SingleRegisterSensor)
| SignedMagnitudeDouble (s : DoubleRegisterSensor)
| ComputedPower (n : NamedSensor) (voltage_sensor current_sensor : Sensor)
| ComputedSum (n : NamedSensor) (sensors : list Sensor)
| AggregatedValue (n : NamedSensor).

Definition ComputedPowerSensor_init (name : string)
    (voltage_sensor current_sensor : Sensor)
    (mqtt_topic_suffix unit_ print_format : string) (groups : list string)
    : result Sensor :=
  n ← NamedSensor_init name mqtt_topic_suffix unit_ print_format groups;
  mret (ComputedPower n voltage_sensor current_sensor).

Definition ComputedSumSensor_init (name : string) (sensors : list Sensor)
    (mqtt_topic_suffix unit_ print_format : string) (groups : list string)
    : result Sensor :=
  n ← NamedSensor_init name mqtt_topic_suffix unit_ print_format groups;
  mret (ComputedSum n sensors).

Definition AggregatedValueSensor_init (name : string)
    (mqtt_topic_suffix unit_ print_format : string) (groups : list string)
    : result Sensor :=
  n ← NamedSensor_init name mqtt_topic_suffix unit_ print_format groups;
  mret (AggregatedValue n).

Definition named (s : Sensor) : NamedSensor :=
  match s with
  | Single s | SignedMagnitudeSingle s => single_named s
  | Double s | SignedMagnitudeDouble s => double_named s
  | ComputedPower n _ _ | ComputedSum n _ | AggregatedValue n => n
  end.

(** [int * factor + offset] *)
Definition scale (i : Z) (factor offset : float) : float :=
  (int_to_float i * factor + offset)%float.

(** [SingleRegisterSensor.read_value] *)
Definition SingleRegisterSensor_read_value (self : SingleRegisterSensor)
    (regs : registers) : option float :=
  match regs !! reg_address self with
  | Some reg_value =>
      Some (scale (int_from_bytes reg_value (signed self))
                  (factor self) (offset self))
  | None => None
  end.

(** [SingleRegisterSensor.write_value]; [value] is the argument after
    [float(value)]. *)
Definition SingleRegisterSensor_write_value (self : SingleRegisterSensor)
    (value : float) : result registers :=
  q ← truediv (value - offset self)%float (factor self);
  v ← float_to_int q;
  b ← int_to_bytes2 v (signed self);
  mret {[ reg_address self := b ]}.

(** [DoubleRegisterSensor.read_value] *)
Definition DoubleRegisterSensor_read_value (self : DoubleRegisterSensor)
    (regs : registers) : option float :=
  let low_word_reg_address :=
    dreg_address self + (if low_word_first self then 0 else 1) in
  let high_word_reg_address :=
    dreg_address self + (if low_word_first self then 1 else 0) in
  match regs !! low_word_reg_address, regs !! high_word_reg_address with
  | Some low_word, Some high_word =>
      Some (scale (int_from_bytes (high_word ++ low_word) (dsigned self))
                  (dfactor self) (doffset self))
  | _, _ => None
  end.

(** [bool(b[0] & 0x80)]; indexing an empty bytearray raises. *)
Definition sign_bit_set (b : list byte) : result bool :=
  match b with
  | b0 :: _ => Ok (negb (Z.land (byte_to_Z b0) 128 =? 0))
  | [] => Raise IndexError
  end.

(** [SignedMagnitudeSingleRegisterSensor.read_value] *)
Definition SignedMagnitudeSingleRegisterSensor_read_value
    (self : SingleRegisterSensor) (regs : registers) : result (option float) :=
  match regs !! reg_address self with
  | Some b =>
      let reg_value := Z.land (int_from_bytes b false) 32767 in
      negative ← sign_bit_set b;
      if negative : bool
      then Ok (Some (scale (-1 * reg_value) (factor self) (offset self)))
      else Ok (Some (scale reg_value (factor self) (offset self)))
  | None => Ok None
  end.

(** [SignedMagnitudeDoubleRegisterSensor.read_value] *)
Definition SignedMagnitudeDoubleRegisterSensor_read_value
    (self : DoubleRegisterSensor) (regs : registers) : result (option float) :=
  let high_word_reg_address := dreg_address self in
  let low_word_reg_address := dreg_address self + 1 in
  match regs !! low_word_reg_address, regs !! high_word_reg_address with
  | Some low_word, Some high_word =>
      let reg_value :=
        Z.land (int_from_bytes (high_word ++ low_word) false) 2147483647 in
      negative ← sign_bit_set high_word;
      if negative : bool
      then Ok (Some (scale (-1 * reg_value) (dfactor self) (doffset self)))
      else Ok (Some (scale reg_value (dfactor self) (doffset self)))
  | _, _ => Ok None
  end.

(** The loop of [ComputedSumSensor.read_value] over the values read. *)
Fixpoint sum_values (result : float) (sensor_values : list (option float))
    : option float :=
  match sensor_values with
  | [] => Some result
  | None :: _ => None
  | Some value :: rest => sum_values (result + value)%float rest
  end.

(** [read_value], dispatched on the class. *)
Fixpoint read_value (s : Sensor) (regs : registers) : result (option float) :=
  match s with
  | Single s => Ok (SingleRegisterSensor_read_value s regs)
  | Double s => Ok (DoubleRegisterSensor_read_value s regs)
  | SignedMagnitudeSingle s =>
      SignedMagnitudeSingleRegisterSensor_read_value s regs
  | SignedMagnitudeDouble s =>
      SignedMagnitudeDoubleRegisterSensor_read_value s regs
  | ComputedPower _ voltage_sensor current_sensor =>
      voltage ← read_value voltage_sensor regs;
      current ← read_value current_sensor regs;
      match voltage, current with
      | Some v, Some c => Ok (Some (v * c)%float)
      | _, _ => Ok None
      end
  | ComputedSum _ sensors =>
      sensor_values ← collect (map (fun s => read_value s regs) sensors);
      Ok (sum_values 0%float sensor_values)
  | AggregatedValue _ => Raise RuntimeError
  end.


(** [Sensor.get_registers] *)
Definition get_registers (s : Sensor) : list Z :=
  match s with
  | Single s | SignedMagnitudeSingle s => [reg_address s]
  | Double s | SignedMagnitudeDouble s => [dreg_address s; dreg_address s + 1]
  | _ => []
  end.

(** [Sensor.in_any_group], on the [groups] attribute:
    [not self.groups or len(active_groups.intersection(self.groups)) > 0] *)
Definition NamedSensor_in_any_group (self : NamedSensor)
    (active_groups : gset string) : bool :=
  match groups self with
  | [] => true
  | _ => 0 <? Z.of_nat (size (active_groups ∩ list_to_set (groups self)))
  end.

Definition in_any_group (s : Sensor) (active_groups : gset string) : bool :=
  NamedSensor_in_any_group (named s) active_groups.

(** ** DailyResetSensor *)

(** The wrapper object: its delegate and the two private attributes.
    [last_value] holds whatever the last completed read stored, [None]
    included. *)
Record DailyResetSensor : Type := {
  delegate : Sensor;
  last_value : option float;
  last_value_ts : datetime
}.

(** [DailyResetSensor.__init__], at construction time [now]. *)
Definition DailyResetSensor_init (delegate : Sensor) (now : datetime)
    : DailyResetSensor :=
  {| delegate := delegate; last_value := Some 0%float; last_value_ts := now |}.

(** [value >= self.__last_value]; ordering a float against [None] is a
    [TypeError]. *)
Definition value_ge (value : float) (last : option float) : result bool :=
  match last with
  | Some l => Ok (l <=? value)%float
  | None => Raise TypeError
  end.

(** The condition of the [if], with the short circuit of [and]. *)
Definition must_reset (self : DailyResetSensor) (now : datetime)
    (value : option float) : result bool :=
  match value with
  | None => Ok false
  | Some v =>
      if negb (day now =? day (last_value_ts self))
      then value_ge v (last_value self)
      else Ok false
  end.

(** [DailyResetSensor.read_value]: the object after the call, and what the
    call returned or raised. *)
Definition DailyResetSensor_read_value (self : DailyResetSensor)
    (now : datetime) (regs : registers)
    : DailyResetSensor * result (option float) :=
  match read_value (delegate self) regs with
  | Raise e => (self, Raise e)
  | Ok value =>
      match must_reset self now value with
      | Raise e => (self, Raise e)
      | Ok true => (self, Ok (Some 0%float))
      | Ok false =>
          ({| delegate := delegate self; last_value := value;
              last_value_ts := now |}, Ok value)
      end
  end.

Definition DailyResetSensor_in_any_group (self : DailyResetSensor)
    (active_groups : gset string) : bool :=
  in_any_group (delegate self) active_groups.

(** ** Register ranges *)

Record SensorRegisterRange : Type := {
  group : gset string;
  first_reg_address : Z;
  last_reg_address : Z
}.

(** The [group] argument of the constructor: one name, or a set. *)
Inductive group_arg : Type :=
| GroupName (g : string)
| GroupSet (gs : gset string).

Definition SensorRegisterRange_init (g : group_arg)
    (first_reg_address last_reg_address : Z) : SensorRegisterRange :=
  {| group := match g with GroupName s => {[ s ]} | GroupSet gs => gs end;
     first_reg_address := first_reg_address;
     last_reg_address := last_reg_address |}.

(** [len(self.group.intersection(active_groups)) > 0] *)
Definition SensorRegisterRange_in_any_group (self : SensorRegisterRange)
    (active_groups : gset string) : bool :=
  0 <? Z.of_nat (size (group self ∩ active_groups)).

Definition SensorRegisterRange_is_same_range (self other : SensorRegisterRange)
    : bool :=
  (first_reg_address self =? first_reg_address other)
  && (last_reg_address self =? last_reg_address other).

Definition SensorRegisterRange_length (self : SensorRegisterRange) : Z :=
  last_reg_address self - first_reg_address self + 1.

(** [math.ceil(a / b)] on integers, as the ceiling of the exact
    quotient.  Python takes the ceiling of the float nearest to the
    quotient, which is the same integer for operands below 2^53 in
    absolute value; the properties that depend on the count are stated
    under that bound. *)
Definition ceil_div (a b : Z) : result Z :=
  if b =? 0 then Raise ZeroDivisionError else Ok (- ((- a) / b)).

Definition SensorRegisterRange_split (self : SensorRegisterRange)
    (sub_range_len : Z) : result (list SensorRegisterRange) :=
  sub_ranges_count ← ceil_div (SensorRegisterRange_length self) sub_range_len;
  mret (map (fun i =>
               let sub_range_first_reg :=
                 first_reg_address self + i * sub_range_len in
               let sub_range_last_reg :=
                 Z.min (sub_range_first_reg + sub_range_len - 1)
                       (last_reg_address self) in
               {| group := group self;
                  first_reg_address := sub_range_first_reg;
                  last_reg_address := sub_range_last_reg |})
            (seqZ 0 sub_ranges_count)).

(** The addresses a range spans, in increasing order. *)
Definition addresses (r : SensorRegisterRange) : list Z :=
  seqZ (first_reg_address r) (SensorRegisterRange_length r).

(** [SensorRegisterRanges.__filter_reg_ranges] *)
Definition filter_reg_ranges (reg_ranges_to_filter : list SensorRegisterRange)
    (metric_groups : list string) : list SensorRegisterRange :=
  List.filter
    (fun r => SensorRegisterRange_in_any_group r (list_to_set metric_groups))
    reg_ranges_to_filter.

(** [SensorRegisterRanges.__split_long_reg_ranges] *)
Definition split_long_reg_ranges (reg_ranges : list SensorRegisterRange)
    (max_range_length : Z) : result (list SensorRegisterRange) :=
  fold_left
    (fun acc reg_range =>
       result ← acc;
       if SensorRegisterRange_length reg_range <=? max_range_length
       then mret (result ++ [reg_range])
       else sub ← SensorRegisterRange_split reg_range max_range_length;
            mret (result ++ sub))
    reg_ranges (Ok []).

(** [SensorRegisterRanges.__remove_duplicated_reg_ranges] *)
Definition remove_duplicated_reg_ranges (reg_ranges : list SensorRegisterRange)
    : list SensorRegisterRange :=
  fold_left
    (fun result reg_range =>
       match List.filter
               (fun r => SensorRegisterRange_is_same_range r reg_range)
               result with
       | [] => result ++ [reg_range]
       | _ => result
       end)
    reg_ranges [].

(** [SensorRegisterRanges.__init__]: the [ranges] attribute it sets. *)
Definition SensorRegisterRanges_init (ranges : list SensorRegisterRange)
    (metric_groups : list string) (max_range_length : Z)
    : result (list SensorRegisterRange) :=
  let filtered_ranges := filter_reg_ranges ranges metric_groups in
  let unique_ranges := remove_duplicated_reg_ranges filtered_ranges in
  split_long_reg_ranges unique_ranges max_range_length.

(** The two bytes the transport stores for a 16-bit register value, high
    byte first. *)
Definition word_bytes (w : Z) : list byte := [byte_of_Z (w / 256); byte_of_Z w].

(** [write_value] as the specification words it: the quotient is rounded
    to the nearest integer. *)
Definition write_value_as_specified (self : SingleRegisterSensor)
    (value : float) : result registers :=
  q ← truediv (value - offset self)%float (factor self);
  v ← float_round q;
  b ← int_to_bytes2 v (signed self);
  mret {[ reg_address self := b ]}.

(** The integer a 32-bit pattern stands for under the configured
    signedness. *)
Definition interpret32 (signed : bool) (raw : Z) : Z :=
  if signed then twos_complement 32 raw else raw.

(** ** Writing back what was read *)

(** The integer [write_value] encodes for what [read_value] returns on a
    register holding the integer [i], by the conversion [to_int] ([int] in
    the code, [round] in the specification). *)
Definition written_back (to_int : float -> result Z) (self : SingleRegisterSensor)
    (i : Z) : result Z :=
  q ← truediv (scale i (factor self) (offset self) - offset self)%float
              (factor self);
  to_int q.

(** The [n] integers from [a] on. *)
Fixpoint count_from (n : nat) (a : Z) : list Z :=
  match n with
  | O => []
  | S n' => a :: count_from n' (a + 1)
  end.

(** Whether the integer [i] is written back as itself. *)
Definition written_back_ok (to_int : float -> result Z)
    (self : SingleRegisterSensor) (i : Z) : bool :=
  match written_back to_int self i with
  | Ok n => n =? i
  | Raise _ => false
  end.

(** Whether every integer that two bytes can hold under the sensor's
    signedness is written back as itself. *)
Definition all_words_written_back (to_int : float -> result Z)
    (self : SingleRegisterSensor) : bool :=
  forallb (written_back_ok to_int self)
          (count_from (Z.to_nat 65536) (if signed self then - 32768 else 0)).

(** ** Sample objects *)

(** The attributes every sample sensor is constructed with. *)
Definition sample_named : NamedSensor :=
  {| name := "AC voltage"; mqtt_topic_suffix := "ac/voltage"; unit_ := "V";
     print_format := "{:0.1f}"; groups := ["micro"] |}.

(** A single-register sensor in tenths, unsigned, at address 0x49. *)
Definition tenths_sensor : SingleRegisterSensor :=
  {| single_named := sample_named; reg_address := 73; factor := 0.1;
     offset := 0; signed := false |}.

(** A single-register sensor in units, at address 0x3c. *)
Definition units_sensor : SingleRegisterSensor :=
  {| single_named := sample_named; reg_address := 60; factor := 1;
     offset := 0; signed := false |}.

(** A double-register sensor in tenths at addresses 0x3f, 0x40. *)
Definition double_sensor (low_first : bool) : DoubleRegisterSensor :=
  {| double_named := sample_named; dreg_address := 63; dfactor := 0.1;
     doffset := 0; dsigned := false; low_word_first := low_first |}.

(** The snapshot in which register 0x3f holds [w0] and register 0x40
    holds [w1]. *)
Definition sample_regs (w0 w1 : Z) : registers :=
  {[ 63 := word_bytes w0; 64 := word_bytes w1 ]}.

(** The snapshot in which register 0x3c holds 5. *)
Definition regs5 : registers := {[ 60 := word_bytes 5 ]}.

(** Timestamps: a day, the next day, and the same day of the month one
    month on. *)
Definition at_date (y m d hh mm : Z) : datetime :=
  {| year := y; month := m; day := d; hour := hh; minute := mm; second := 0;
     microsecond := 0 |}.

Definition yesterday : datetime := at_date 2024 3 14 21 30.
Definition today : datetime := at_date 2024 3 15 6 10.
Definition a_month_later : datetime := at_date 2024 4 14 6 10.

(** A wrapper around [units_sensor] in a given state. *)
Definition daily (last : option float) (ts : datetime) : DailyResetSensor :=
  {| delegate := Single units_sensor; last_value := last; last_value_ts := ts |}.

(** The catalog of the consolidation example. *)
Definition sample_catalog : list SensorRegisterRange :=
  [ SensorRegisterRange_init (GroupName "g1") 10 20;
    SensorRegisterRange_init (GroupName "g1") 10 20;
    SensorRegisterRange_init (GroupName "g2") 30 45 ].

(** The range of one group. *)
Definition range_of (g : string) (first last : Z) : SensorRegisterRange :=
  {| group := {[ g ]}; first_reg_address := first; last_reg_address := last |}.

(** ** The daily reset as the specification words it

    Kept apart from the embedding of the code, to compare the two. *)

(** The returned value: [0] on a present value that is at least
    [last_value] when the calendar day of [now] is not that of
    [last_value_ts], the delegate's value otherwise. *)
Definition returned_as_specified (self : DailyResetSensor) (now : datetime)
    (value : option float) : option float :=
  match value, last_value self with
  | Some v, Some last =>
      if negb (bool_decide (date now = date (last_value_ts self)))
         && (last <=? v)%float
      then Some 0%float else Some v
  | _, _ => value
  end.

(** The state after the read: a present value is stored with [now]
    whichever branch was taken, an absent one changes nothing. *)
Definition state_as_specified (self : DailyResetSensor) (now : datetime)
    (value : option float) : DailyResetSensor :=
  match value with
  | Some v => {| delegate := delegate self; last_value := Some v;
                 last_value_ts := now |}
  | None => self
  end.

(** Two returned values are told apart by their IEEE decompositions. *)
Definition returned_bits (r : result (option float)) : option (option spec_float) :=
  match r with
  | Ok v => Some (option_map Prim2SF v)
  | Raise _ => None
  end.

(** ** Notions the further properties are stated with *)

(** The sensors that decode registers themselves. *)
Definition is_leaf (s : Sensor) : bool :=
  match s with
  | Single _ | Double _ | SignedMagnitudeSingle _ | SignedMagnitudeDouble _ => true
  | _ => false
  end.

(** What [is_same_range] compares. *)
Definition bounds (r : SensorRegisterRange) : Z * Z :=
  (first_reg_address r, last_reg_address r).

(** Successive calls of [read_value] on one wrapper object, each at its own
    time and on its own snapshot: the object after the last call, and what
    each call returned or raised. *)
Fixpoint DailyResetSensor_reads (self : DailyResetSensor)
    (reads : list (datetime * registers))
    : DailyResetSensor * list (result (option float)) :=
  match reads with
  | [] => (self, [])
  | (now, regs) :: rest =>
      let (self', returned) := DailyResetSensor_read_value self now regs in
      let (final, more) := DailyResetSensor_reads self' rest in
      (final, returned :: more)
  end.

(** What [__split_long_reg_ranges] appends for one range. *)
Definition appended (max_range_length : Z) (reg_range : SensorRegisterRange)
    : result (list SensorRegisterRange) :=
  if SensorRegisterRange_length reg_range <=? max_range_length
  then Ok [reg_range]
  else SensorRegisterRange_split reg_range max_range_length.

(** * Properties *)

(** ** Bytes and words *)

Lemma byte_to_Z_range (b : byte) : 0 <= byte_to_Z b < 256.
Proof.
  unfold byte_to_Z. pose proof (Byte.to_N_bounded b). lia.
Qed.

Lemma byte_of_to_Z (b : byte) : byte_of_Z (byte_to_Z b) = b.
Proof.
  unfold byte_of_Z, byte_to_Z.
  rewrite Z.mod_small by apply byte_to_Z_range.
  rewrite N2Z.id, Byte.of_to_N. reflexivity.
Qed.

Lemma byte_to_of_Z (z : Z) : byte_to_Z (byte_of_Z z) = z mod 256.
Proof.
  unfold byte_of_Z, byte_to_Z.
  assert (Hr : 0 <= z mod 256 < 256) by (apply Z.mod_pos_bound; lia).
  destruct (Byte.of_N (Z.to_N (z mod 256))) as [b|] eqn:E.
  - apply Byte.to_of_N in E. rewrite E. lia.
  - apply Byte.of_N_None_iff in E. lia.
Qed.

Lemma from_bytes_unsigned2 (b0 b1 : byte) :
  from_bytes_unsigned [b0; b1] = byte_to_Z b0 * 256 + byte_to_Z b1.
Proof. unfold from_bytes_unsigned. simpl. lia. Qed.

Lemma from_bytes_unsigned_word (w : Z) :
  0 <= w < 2 ^ 16 -> from_bytes_unsigned (word_bytes w) = w.
Proof.
  intros Hw. unfold word_bytes. rewrite from_bytes_unsigned2, !byte_to_of_Z.
  assert (0 <= w / 256 < 256) by (split; [apply Z.div_pos | apply Z.div_lt_upper_bound]; lia).
  rewrite (Z.mod_small (w / 256)) by lia.
  pose proof (Z.div_mod w 256). lia.
Qed.

Lemma word_bytes_from_bytes (b0 b1 : byte) :
  word_bytes (from_bytes_unsigned [b0; b1]) = [b0; b1].
Proof.
  rewrite from_bytes_unsigned2. unfold word_bytes.
  pose proof (byte_to_Z_range b0). pose proof (byte_to_Z_range b1).
  assert (E0 : (byte_to_Z b0 * 256 + byte_to_Z b1) / 256 = byte_to_Z b0)
    by (rewrite Z.div_add_l, Z.div_small; lia).
  rewrite E0, byte_of_to_Z.
  assert (E1 : byte_of_Z (byte_to_Z b0 * 256 + byte_to_Z b1) = byte_of_Z (byte_to_Z b1)).
  { unfold byte_of_Z. rewrite Z.add_comm, Z.mod_add by lia. reflexivity. }
  rewrite E1, byte_of_to_Z. reflexivity.
Qed.

Lemma from_bytes_unsigned_app (hi lo : list byte) :
  from_bytes_unsigned (hi ++ lo)
  = from_bytes_unsigned hi * 256 ^ Z.of_nat (length lo) + from_bytes_unsigned lo.
Proof.
  unfold from_bytes_unsigned. rewrite fold_left_app.
  generalize (fold_left (fun acc x => acc * 256 + byte_to_Z x) hi 0).
  induction lo as [|b lo IH] using rev_ind; intros a.
  - simpl. lia.
  - rewrite !fold_left_app, length_app. simpl. rewrite IH.
    rewrite Nat2Z.inj_add, Z.pow_add_r by lia. simpl (Z.of_nat 1). lia.
Qed.

Lemma int_from_bytes2 (b0 b1 : byte) (sg : bool) :
  int_from_bytes [b0; b1] sg
  = let u := byte_to_Z b0 * 256 + byte_to_Z b1 in
    if sg && (2 ^ 15 <=? u) then u - 2 ^ 16 else u.
Proof.
  unfold int_from_bytes, twos_complement. rewrite from_bytes_unsigned2.
  change (8 * Z.of_nat (length [b0; b1])) with 16.
  destruct sg; reflexivity.
Qed.

Lemma int_to_bytes2_in_range (v : Z) (sg : bool) :
  (if sg then - 2 ^ 15 <= v < 2 ^ 15 else 0 <= v < 2 ^ 16) ->
  int_to_bytes2 v sg = Ok (word_bytes (v mod 2 ^ 16)).
Proof.
  intros Hv. unfold int_to_bytes2.
  replace ((_ <=? v) && (v <? _)) with true; [reflexivity|].
  symmetry. apply andb_true_iff.
  destruct sg; split; first [apply Z.leb_le | apply Z.ltb_lt]; lia.
Qed.

(** [to_bytes] undoes [from_bytes] on two bytes, for either signedness. *)
Lemma int_to_bytes2_from_bytes (b0 b1 : byte) (sg : bool) :
  int_to_bytes2 (int_from_bytes [b0; b1] sg) sg = Ok [b0; b1].
Proof.
  rewrite <- (word_bytes_from_bytes b0 b1) at 2.
  rewrite int_from_bytes2, from_bytes_unsigned2. cbv zeta.
  pose proof (byte_to_Z_range b0). pose proof (byte_to_Z_range b1).
  set (u := byte_to_Z b0 * 256 + byte_to_Z b1).
  assert (Hu : 0 <= u < 2 ^ 16) by (subst u; lia).
  destruct sg; simpl andb; [destruct (2 ^ 15 <=? u) eqn:E|].
  - apply Z.leb_le in E. rewrite int_to_bytes2_in_range by lia.
    do 2 f_equal. symmetry. apply Z.mod_unique with (q := -1); lia.
  - apply Z.leb_gt in E. rewrite int_to_bytes2_in_range by lia.
    rewrite Z.mod_small by lia. reflexivity.
  - rewrite int_to_bytes2_in_range by lia.
    rewrite Z.mod_small by lia. reflexivity.
Qed.

(** ** Single-register write *)

Lemma read_value_single (self : SingleRegisterSensor) (regs : registers)
    (b : list byte) :
  regs !! reg_address self = Some b ->
  SingleRegisterSensor_read_value self regs
  = Some (scale (int_from_bytes b (signed self)) (factor self) (offset self)).
Proof. intros H. unfold SingleRegisterSensor_read_value. rewrite H. reflexivity. Qed.

(** Whenever the truncated quotient is the integer the register holds,
    writing back what was read gives the register's bytes. *)
Lemma write_value_read_value (self : SingleRegisterSensor) (regs : registers)
    (b0 b1 : byte) (v : float) :
  regs !! reg_address self = Some [b0; b1] ->
  SingleRegisterSensor_read_value self regs = Some v ->
  (q ← truediv (v - offset self)%float (factor self); float_to_int q)
  = Ok (int_from_bytes [b0; b1] (signed self)) ->
  SingleRegisterSensor_write_value self v = Ok {[ reg_address self := [b0; b1] ]}.
Proof.
  intros _ _ Hq. unfold SingleRegisterSensor_write_value.
  destruct (truediv (v - offset self) (factor self)) as [q|e]; [|discriminate Hq].
  simpl in Hq |- *. rewrite Hq. simpl.
  rewrite int_to_bytes2_from_bytes. reflexivity.
Qed.

(** C4. On the register value 43 (0x002B) a sensor in tenths reads 4.3;
    [write_value] divides back to 42.99999999999999, truncates, and writes
    42 (0x002A), where rounding the quotient as specified gives 43 and the
    original bytes. *)
Theorem write_value_truncates :
  let regs : registers := {[ 73 := [Byte.x00; Byte.x2b] ]} in
  SingleRegisterSensor_read_value tenths_sensor regs = Some 4.3%float
  /\ truediv (4.3 - 0)%float 0.1%float = Ok 42.99999999999999%float
  /\ SingleRegisterSensor_write_value tenths_sensor 4.3%float
     = Ok {[ 73 := [Byte.x00; Byte.x2a] ]}
  /\ write_value_as_specified tenths_sensor 4.3%float
     = Ok {[ 73 := [Byte.x00; Byte.x2b] ]}.
Proof. vm_compute. repeat split; reflexivity. Qed.

Lemma in_count_from (n : nat) (a w : Z) :
  a <= w < a + Z.of_nat n -> In w (count_from n a).
Proof.
  revert a. induction n as [|n IH]; intros a Hw; [lia|].
  simpl. destruct (Z.eq_dec a w) as [->|Hne]; [now left|].
  right. apply IH. lia.
Qed.

Lemma all_words_written_back_spec (to_int : float -> result Z)
    (self : SingleRegisterSensor) (b0 b1 : byte) :
  all_words_written_back to_int self = true ->
  written_back to_int self (int_from_bytes [b0; b1] (signed self))
  = Ok (int_from_bytes [b0; b1] (signed self)).
Proof.
  unfold all_words_written_back. rewrite forallb_forall. intros Hall.
  specialize (Hall (int_from_bytes [b0; b1] (signed self))).
  assert (Hin : In (int_from_bytes [b0; b1] (signed self))
                   (count_from (Z.to_nat 65536)
                               (if signed self then - 32768 else 0))).
  { apply in_count_from. rewrite int_from_bytes2, Z2Nat.id by lia. cbv zeta.
    pose proof (byte_to_Z_range b0). pose proof (byte_to_Z_range b1).
    destruct (signed self); cbn [andb]; [destruct (_ <=? _) eqn:E|];
      rewrite ?Z.leb_le, ?Z.leb_gt in *; lia. }
  specialize (Hall Hin). unfold written_back_ok in Hall.
  destruct (written_back to_int self (int_from_bytes [b0; b1] (signed self))) as [n|e].
  - f_equal. apply Z.eqb_eq, Hall.
  - discriminate Hall.
Qed.

Lemma tenths_all_words_rounded_back :
  all_words_written_back float_round tenths_sensor = true.
Proof. vm_compute. reflexivity. Qed.

(** More register values that a sensor in tenths writes back one lower. *)
Example tenths_truncated :
  map (written_back float_to_int tenths_sensor) [43; 81; 86; 91; 162]
  = [Ok 42; Ok 80; Ok 85; Ok 90; Ok 161].
Proof. vm_compute. reflexivity. Qed.

(** With factor 1 and offset 0 the quotient is the register value itself. *)
Example units_written_back :
  SingleRegisterSensor_read_value units_sensor regs5 = Some 5%float
  /\ SingleRegisterSensor_write_value units_sensor 5%float
     = Ok {[ 60 := [Byte.x00; Byte.x05] ]}.
Proof.
  split; [reflexivity|].
  apply (write_value_read_value units_sensor regs5 Byte.x00 Byte.x05 5%float);
    reflexivity.
Qed.

(** In tenths, rounding the quotient as the specification says writes
    every register value back unchanged. *)
Lemma as_specified_read_value_tenths (regs : registers) (b0 b1 : byte) (v : float) :
  regs !! 73 = Some [b0; b1] ->
  SingleRegisterSensor_read_value tenths_sensor regs = Some v ->
  write_value_as_specified tenths_sensor v = Ok {[ 73 := [b0; b1] ]}.
Proof.
  intros Hr Hv.
  rewrite (read_value_single tenths_sensor regs _ Hr) in Hv. injection Hv as <-.
  pose proof (all_words_written_back_spec float_round tenths_sensor b0 b1
                tenths_all_words_rounded_back) as H.
  unfold written_back in H. unfold write_value_as_specified.
  destruct (truediv _ _) as [q|e]; [|discriminate H].
  cbn [mbind result_bind] in H |- *. rewrite H.
  cbn [mbind result_bind]. rewrite int_to_bytes2_from_bytes. reflexivity.
Qed.

(** ** Sign-magnitude and double-register decoding *)

Lemma byte_sign_bit (b : byte) :
  negb (Z.land (byte_to_Z b) 128 =? 0) = Z.testbit (byte_to_Z b) 7.
Proof. destruct b; reflexivity. Qed.

Lemma word_high_byte (w : Z) :
  0 <= w < 2 ^ 16 -> byte_to_Z (byte_of_Z (w / 256)) = w / 2 ^ 8.
Proof.
  intros Hw. rewrite byte_to_of_Z. change (2 ^ 8) with 256.
  apply Z.mod_small. split; [apply Z.div_pos | apply Z.div_lt_upper_bound]; lia.
Qed.

(** The sign test on the first byte of a stored word is bit 15 of the
    word. *)
Lemma sign_bit_set_word (w : Z) :
  0 <= w < 2 ^ 16 -> sign_bit_set (word_bytes w) = Ok (Z.testbit w 15).
Proof.
  intros Hw. unfold word_bytes, sign_bit_set.
  rewrite byte_sign_bit, word_high_byte by exact Hw.
  rewrite Z.div_pow2_bits by lia. reflexivity.
Qed.

Lemma high_bits_clear (lo n : Z) :
  0 <= lo < 2 ^ 16 -> 16 <= n -> Z.testbit lo n = false.
Proof.
  intros Hlo Hn. rewrite <- (Z.mod_small lo (2 ^ 16)) by exact Hlo.
  apply Z.mod_pow2_bits_high. lia.
Qed.

(** Concatenating two stored words, high word first, is [hi<<16 | lo]. *)
Lemma from_bytes_unsigned_words (hi lo : Z) :
  0 <= hi < 2 ^ 16 -> 0 <= lo < 2 ^ 16 ->
  from_bytes_unsigned (word_bytes hi ++ word_bytes lo)
  = Z.lor (Z.shiftl hi 16) lo.
Proof.
  intros Hhi Hlo.
  rewrite from_bytes_unsigned_app, !from_bytes_unsigned_word by assumption.
  change (256 ^ Z.of_nat (length (word_bytes lo))) with (2 ^ 16).
  rewrite <- Z.shiftl_mul_pow2 by lia.
  assert (Hdisj : Z.land (Z.shiftl hi 16) lo = 0).
  { apply Z.bits_inj'. intros n Hn. rewrite Z.land_spec, Z.bits_0.
    destruct (Z_lt_le_dec n 16) as [Hlt|Hge].
    - rewrite Z.shiftl_spec_low by exact Hlt. reflexivity.
    - rewrite (high_bits_clear lo n Hlo Hge). apply andb_false_r. }
  rewrite (Z.add_nocarry_lxor _ _ Hdisj). apply Z.lxor_lor, Hdisj.
Qed.

(** C5. The signed-magnitude single-register read: on a stored 16-bit
    value whose low 15 bits are [m] it returns [-m * factor + offset] when
    bit 15 is set and [m * factor + offset] when it is clear; without the
    register in the snapshot it returns [None]. *)
Theorem signed_magnitude_single_read (self : SingleRegisterSensor)
    (regs : registers) :
  (forall w m : Z,
      0 <= w < 2 ^ 16 -> m = w mod 2 ^ 15 ->
      regs !! reg_address self = Some (word_bytes w) ->
      SignedMagnitudeSingleRegisterSensor_read_value self regs
      = Ok (Some (if Z.testbit w 15
                  then (int_to_float (- m) * factor self + offset self)%float
                  else (int_to_float m * factor self + offset self)%float)))
  /\ (regs !! reg_address self = None ->
      SignedMagnitudeSingleRegisterSensor_read_value self regs = Ok None).
Proof.
  unfold SignedMagnitudeSingleRegisterSensor_read_value. split.
  - intros w m Hw -> Hr. rewrite Hr.
    rewrite (sign_bit_set_word w Hw). cbn [mbind result_bind].
    unfold int_from_bytes. rewrite (from_bytes_unsigned_word w Hw).
    change 32767 with (Z.ones 15). rewrite Z.land_ones by lia.
    replace (-1 * (w mod 2 ^ 15)) with (- (w mod 2 ^ 15)) by lia.
    destruct (Z.testbit w 15); reflexivity.
  - intros Hr. rewrite Hr. reflexivity.
Qed.

(** The value 0x8019: sign bit set, magnitude 25, decoded in tenths. *)
Lemma signed_magnitude_single_read_witness :
  (0 <= 32793 < 2 ^ 16 /\ 25 = 32793 mod 2 ^ 15
   /\ ({[ 73 := word_bytes 32793 ]} : registers) !! reg_address tenths_sensor
      = Some (word_bytes 32793))
  /\ SignedMagnitudeSingleRegisterSensor_read_value tenths_sensor
       {[ 73 := word_bytes 32793 ]}
     = Ok (Some (-2.5)%float)
  /\ SignedMagnitudeSingleRegisterSensor_read_value tenths_sensor ∅ = Ok None.
Proof.
  split; [repeat split; (lia || reflexivity)|]. split.
  - exact (proj1 (signed_magnitude_single_read tenths_sensor
                    {[ 73 := word_bytes 32793 ]})
                 32793 25 ltac:(lia) eq_refl eq_refl).
  - exact (proj2 (signed_magnitude_single_read tenths_sensor ∅) eq_refl).
Defined.

Lemma int_from_bytes_words (hi lo : Z) (sg : bool) :
  0 <= hi < 2 ^ 16 -> 0 <= lo < 2 ^ 16 ->
  int_from_bytes (word_bytes hi ++ word_bytes lo) sg
  = interpret32 sg (Z.lor (Z.shiftl hi 16) lo).
Proof.
  intros Hhi Hlo. unfold int_from_bytes, interpret32.
  rewrite from_bytes_unsigned_words by assumption. reflexivity.
Qed.

(** C6. The double-register read: with the low word first and the
    snapshot holding [lo] at [a] and [hi] at [a+1], or with the high word
    first and the snapshot holding [hi] at [a] and [lo] at [a+1], the
    integer that is scaled is [hi<<16 | lo] (read in two's complement when
    the sensor is signed); with either address missing it returns [None]. *)
Theorem double_register_read (self : DoubleRegisterSensor) (regs : registers) :
  (forall hi lo : Z,
      0 <= hi < 2 ^ 16 -> 0 <= lo < 2 ^ 16 ->
      regs !! (dreg_address self + (if low_word_first self then 0 else 1))
      = Some (word_bytes lo) ->
      regs !! (dreg_address self + (if low_word_first self then 1 else 0))
      = Some (word_bytes hi) ->
      DoubleRegisterSensor_read_value self regs
      = Some (scale (interpret32 (dsigned self) (Z.lor (Z.shiftl hi 16) lo))
                    (dfactor self) (doffset self)))
  /\ (regs !! dreg_address self = None \/ regs !! (dreg_address self + 1) = None ->
      DoubleRegisterSensor_read_value self regs = None).
Proof.
  unfold DoubleRegisterSensor_read_value. split.
  - intros hi lo Hhi Hlo Hl Hh. rewrite Hl, Hh.
    rewrite int_from_bytes_words by assumption. reflexivity.
  - intros Hnone.
    destruct (regs !! dreg_address self) as [w0|] eqn:E0,
             (regs !! (dreg_address self + 1)) as [w1|] eqn:E1,
             (low_word_first self);
      rewrite ?Z.add_0_r, ?E0, ?E1; try reflexivity;
      destruct Hnone; discriminate.
Qed.

(** The low word 0x5678 and the high word 0x1234 make 0x12345678 in either
    word order. *)
Lemma double_register_read_witness :
  ((0 <= 4660 < 2 ^ 16 /\ 0 <= 22136 < 2 ^ 16)
   /\ DoubleRegisterSensor_read_value (double_sensor true) (sample_regs 22136 4660)
      = Some (scale 305419896 0.1 0))
  /\ ((0 <= 4660 < 2 ^ 16 /\ 0 <= 22136 < 2 ^ 16)
      /\ DoubleRegisterSensor_read_value (double_sensor false) (sample_regs 4660 22136)
         = Some (scale 305419896 0.1 0))
  /\ DoubleRegisterSensor_read_value (double_sensor true) {[ 63 := word_bytes 22136 ]}
     = None.
Proof.
  split; [split; [lia|]|split; [split; [lia|]|]].
  - exact (proj1 (double_register_read (double_sensor true) (sample_regs 22136 4660))
                 4660 22136 ltac:(lia) ltac:(lia) eq_refl eq_refl).
  - exact (proj1 (double_register_read (double_sensor false) (sample_regs 4660 22136))
                 4660 22136 ltac:(lia) ltac:(lia) eq_refl eq_refl).
  - exact (proj2 (double_register_read (double_sensor true) {[ 63 := word_bytes 22136 ]})
                 (or_intror eq_refl)).
Defined.

(** ** Sums of sensors *)

Lemma collect_reads (sensors : list Sensor) (regs : registers)
    (sensor_values : list (option float)) :
  Forall2 (fun s v => read_value s regs = Ok v) sensors sensor_values ->
  collect (map (fun s => read_value s regs) sensors) = Ok sensor_values.
Proof.
  induction 1 as [|s v sensors sensor_values Hs _ IH]; [reflexivity|].
  simpl. rewrite Hs, IH. reflexivity.
Qed.

Lemma sum_values_absent (sensor_values : list (option float)) (acc : float) :
  In None sensor_values -> sum_values acc sensor_values = None.
Proof.
  revert acc. induction sensor_values as [|[v|] rest IH]; intros acc Hin.
  - destruct Hin.
  - simpl. apply IH. destruct Hin as [Heq|Hin]; [discriminate Heq | exact Hin].
  - reflexivity.
Qed.

Lemma sum_values_present (values : list float) (acc : float) :
  sum_values acc (map Some values) = Some (fold_left PrimFloat.add values acc).
Proof.
  revert acc. induction values as [|v rest IH]; intros acc; [reflexivity|].
  simpl. apply IH.
Qed.

(** C7, as the code has it. A sum whose operands all return: it is
    [None] as soon as one operand is [None], and otherwise the operands'
    values added up from 0 in list order; over no operands it is 0. *)
Theorem computed_sum_read (n : NamedSensor) (sensors : list Sensor)
    (regs : registers) (sensor_values : list (option float)) :
  Forall2 (fun s v => read_value s regs = Ok v) sensors sensor_values ->
  (In None sensor_values -> read_value (ComputedSum n sensors) regs = Ok None)
  /\ (forall values : list float,
         sensor_values = map Some values ->
         read_value (ComputedSum n sensors) regs
         = Ok (Some (fold_left PrimFloat.add values 0%float)))
  /\ read_value (ComputedSum n []) regs = Ok (Some 0%float).
Proof.
  intros Hreads.
  assert (Hsum : read_value (ComputedSum n sensors) regs
                 = Ok (sum_values 0%float sensor_values)).
  { change (read_value (ComputedSum n sensors) regs)
      with (vs ← collect (map (fun s => read_value s regs) sensors);
            Ok (sum_values 0%float vs)).
    rewrite (collect_reads _ _ _ Hreads). reflexivity. }
  split; [|split].
  - intros Hin. rewrite Hsum, sum_values_absent by exact Hin. reflexivity.
  - intros values ->. rewrite Hsum, sum_values_present. reflexivity.
  - reflexivity.
Qed.

(** Two operands reading 5 and 4.3 add up to 9.3; without the second
    register the sum is [None], not 5. *)
Lemma computed_sum_read_witness :
  let sensors := [Single units_sensor; Single tenths_sensor] in
  let regs : registers := {[ 60 := word_bytes 5; 73 := word_bytes 43 ]} in
  (Forall2 (fun s v => read_value s regs = Ok v) sensors
           [Some 5%float; Some 4.3%float]
   /\ read_value (ComputedSum sample_named sensors) regs = Ok (Some 9.3%float))
  /\ (Forall2 (fun s v => read_value s regs5 = Ok v) sensors [Some 5%float; None]
      /\ read_value (ComputedSum sample_named sensors) regs5 = Ok None).
Proof.
  intros sensors regs.
  assert (H1 : Forall2 (fun s v => read_value s regs = Ok v) sensors
                       [Some 5%float; Some 4.3%float])
    by (repeat constructor).
  assert (H2 : Forall2 (fun s v => read_value s regs5 = Ok v) sensors
                       [Some 5%float; None])
    by (repeat constructor).
  split; (split; [assumption|]).
  - exact (proj1 (proj2 (computed_sum_read sample_named sensors regs _ H1))
                 [5%float; 4.3%float] eq_refl).
  - exact (proj1 (computed_sum_read sample_named sensors regs5 _ H2)
                 (or_intror (or_introl eq_refl))).
Defined.

(** C7 as stated fails when an operand raises: the first operand is
    absent, yet the read of the sum is not absent, because the second
    operand is read before anything is summed and its read raises. *)
Lemma computed_sum_absent_but_raises :
  read_value (Single units_sensor) ∅ = Ok None
  /\ read_value (AggregatedValue sample_named) ∅ = Raise RuntimeError
  /\ read_value (ComputedSum sample_named
                   [Single units_sensor; AggregatedValue sample_named]) ∅
     = Raise RuntimeError
  /\ read_value (ComputedSum sample_named
                   [Single units_sensor; AggregatedValue sample_named]) ∅
     <> Ok None.
Proof. do 3 (split; [reflexivity|]). discriminate. Qed.

(** ** The daily reset *)

Ltac returns_differ :=
  let H := fresh in
  intros H; apply (f_equal returned_bits) in H; vm_compute in H; discriminate H.

Lemma daily_reset_unfold (self : DailyResetSensor) (now : datetime)
    (regs : registers) (value : option float) :
  read_value (delegate self) regs = Ok value ->
  DailyResetSensor_read_value self now regs
  = match must_reset self now value with
    | Raise e => (self, Raise e)
    | Ok true => (self, Ok (Some 0%float))
    | Ok false =>
        ({| delegate := delegate self; last_value := value;
            last_value_ts := now |}, Ok value)
    end.
Proof. intros H. unfold DailyResetSensor_read_value. rewrite H. reflexivity. Qed.

Lemma must_reset_number (self : DailyResetSensor) (now : datetime)
    (value : option float) (last : float) :
  last_value self = Some last ->
  must_reset self now value
  = Ok (match value with
        | Some v => negb (day now =? day (last_value_ts self)) && (last <=? v)%float
        | None => false
        end).
Proof.
  intros Hl. unfold must_reset, value_ge. rewrite Hl.
  destruct value as [v|]; [|reflexivity].
  destruct (negb (day now =? day (last_value_ts self))); reflexivity.
Qed.

(** The whole outcome of a read over a number in [last_value]. *)
Lemma daily_reset_number (self : DailyResetSensor) (now : datetime)
    (regs : registers) (value : option float) (last : float) :
  read_value (delegate self) regs = Ok value ->
  last_value self = Some last ->
  DailyResetSensor_read_value self now regs
  = match value with
    | Some v =>
        if negb (day now =? day (last_value_ts self)) && (last <=? v)%float
        then (self, Ok (Some 0%float))
        else ({| delegate := delegate self; last_value := Some v;
                 last_value_ts := now |}, Ok (Some v))
    | None =>
        ({| delegate := delegate self; last_value := None;
            last_value_ts := now |}, Ok None)
    end.
Proof.
  intros Hv Hl. rewrite (daily_reset_unfold _ _ _ _ Hv).
  rewrite (must_reset_number _ _ _ _ Hl).
  destruct value as [v|]; [|reflexivity].
  destruct (negb _ && _); reflexivity.
Qed.

(** What the code returns over a number in [last_value]: 0 if the
    delegate's value is present, the day of the month of [now] differs
    from that of [last_value_ts], and the value is at least [last_value];
    in every other case the delegate's value. *)
Theorem daily_reset_returns (self : DailyResetSensor) (now : datetime)
    (regs : registers) (value : option float) (last : float) :
  read_value (delegate self) regs = Ok value ->
  last_value self = Some last ->
  (DailyResetSensor_read_value self now regs).2
  = Ok (match value with
        | Some v =>
            if negb (day now =? day (last_value_ts self)) && (last <=? v)%float
            then Some 0%float else Some v
        | None => None
        end).
Proof.
  intros Hv Hl. rewrite (daily_reset_number _ now _ _ _ Hv Hl).
  destruct value as [v|]; [|reflexivity].
  destruct (negb _ && _); reflexivity.
Qed.

Lemma daily_reset_returns_witness :
  (read_value (delegate (daily (Some 3%float) yesterday)) regs5 = Ok (Some 5%float)
   /\ last_value (daily (Some 3%float) yesterday) = Some 3%float)
  /\ (DailyResetSensor_read_value (daily (Some 3%float) yesterday) today regs5).2
     = Ok (Some 0%float).
Proof.
  split; [split; reflexivity|].
  exact (daily_reset_returns (daily (Some 3%float) yesterday) today regs5
           (Some 5%float) 3%float eq_refl eq_refl).
Defined.

(** C1. The code at a read one month after the last one (last value 0
    stored on 2024-03-14, a value of 5 on 2024-04-14): the calendar day
    has changed and 5 is at least 0, so the daily reset is due and the
    read should return 0; the code compares the days of the month, finds
    14 twice, and returns 5.  And once an absent value has been stored, a
    present value on another day is neither replaced by 0 nor returned:
    the comparison raises. *)
Lemma daily_reset_month_apart :
  date a_month_later <> date yesterday
  /\ read_value (delegate (daily (Some 0%float) yesterday)) regs5 = Ok (Some 5%float)
  /\ (0 <=? 5)%float = true
  /\ returned_as_specified (daily (Some 0%float) yesterday) a_month_later
       (Some 5%float) = Some 0%float
  /\ (DailyResetSensor_read_value (daily (Some 0%float) yesterday)
        a_month_later regs5).2 = Ok (Some 5%float)
  /\ (DailyResetSensor_read_value (daily (Some 0%float) yesterday)
        a_month_later regs5).2
     <> Ok (returned_as_specified (daily (Some 0%float) yesterday) a_month_later
              (Some 5%float))
  /\ (DailyResetSensor_read_value (daily None yesterday) today regs5).2
     = Raise TypeError.
Proof.
  split; [discriminate|]. do 4 (split; [reflexivity|]).
  split; [returns_differ | reflexivity].
Qed.

(** C2, as the code has it. On a present value, with a number in
    [last_value]: the synthetic reset leaves both attributes as they were,
    and the pass-through stores the value and [now]. *)
Theorem daily_reset_state (self : DailyResetSensor) (now : datetime)
    (regs : registers) (v last : float) :
  read_value (delegate self) regs = Ok (Some v) ->
  last_value self = Some last ->
  (DailyResetSensor_read_value self now regs).1
  = if negb (day now =? day (last_value_ts self)) && (last <=? v)%float
    then self
    else {| delegate := delegate self; last_value := Some v;
            last_value_ts := now |}.
Proof.
  intros Hv Hl. rewrite (daily_reset_number _ now _ _ _ Hv Hl).
  destruct (negb _ && _); reflexivity.
Qed.

Lemma daily_reset_state_witness :
  (read_value (delegate (daily (Some 100%float) yesterday)) regs5 = Ok (Some 5%float)
   /\ last_value (daily (Some 100%float) yesterday) = Some 100%float)
  /\ (DailyResetSensor_read_value (daily (Some 100%float) yesterday) today regs5).1
     = daily (Some 5%float) today.
Proof.
  split; [split; reflexivity|].
  exact (daily_reset_state (daily (Some 100%float) yesterday) today regs5
           5%float 100%float eq_refl eq_refl).
Defined.

(** C2 as stated fails: on the synthetic reset the present value 5 is not
    stored, and the timestamp stays at yesterday. *)
Lemma daily_reset_keeps_state_on_reset :
  read_value (delegate (daily (Some 3%float) yesterday)) regs5 = Ok (Some 5%float)
  /\ (DailyResetSensor_read_value (daily (Some 3%float) yesterday) today regs5).2
     = Ok (Some 0%float)
  /\ (DailyResetSensor_read_value (daily (Some 3%float) yesterday) today regs5).1
     = daily (Some 3%float) yesterday
  /\ state_as_specified (daily (Some 3%float) yesterday) today (Some 5%float)
     = daily (Some 5%float) today
  /\ last_value_ts
       (DailyResetSensor_read_value (daily (Some 3%float) yesterday) today regs5).1
     <> last_value_ts
          (state_as_specified (daily (Some 3%float) yesterday) today (Some 5%float)).
Proof.
  do 4 (split; [reflexivity|]). vm_compute. discriminate.
Qed.

(** C8, as the code has it. A reading of 5 on the new day after a last
    value of 100 is below it, so it is returned and stored with today's
    timestamp; after a last value of 3 it is not below, so the read
    returns 0 and the state stays as it was. *)
Theorem daily_reset_examples :
  DailyResetSensor_read_value (daily (Some 100%float) yesterday) today regs5
  = (daily (Some 5%float) today, Ok (Some 5%float))
  /\ DailyResetSensor_read_value (daily (Some 3%float) yesterday) today regs5
     = (daily (Some 3%float) yesterday, Ok (Some 0%float)).
Proof. split; reflexivity. Qed.

(** C8 as stated fails in both scenarios: the first read does not return
    0, and the second does not return 5. *)
Lemma daily_reset_examples_differ :
  day today <> day yesterday
  /\ read_value (Single units_sensor) regs5 = Ok (Some 5%float)
  /\ (DailyResetSensor_read_value (daily (Some 100%float) yesterday) today regs5).2
     <> Ok (Some 0%float)
  /\ (DailyResetSensor_read_value (daily (Some 3%float) yesterday) today regs5).2
     <> Ok (Some 5%float).
Proof.
  split; [discriminate|]. split; [reflexivity|]. split; returns_differ.
Qed.

(** C10, as the code has it. An absent delegate value is stored: after
    that read [last_value] is [None] and [last_value_ts] is [now].  The
    next read of a present value raises [TypeError] when the day of the
    month has changed, and leaves the object as it was.  With a number in
    [last_value] a read returns whenever the delegate does. *)
Theorem daily_reset_absent_then_present (self : DailyResetSensor)
    (now later : datetime) (regs regs' : registers) (v : float) :
  read_value (delegate self) regs = Ok None ->
  read_value (delegate self) regs' = Ok (Some v) ->
  day later <> day now ->
  let after := (DailyResetSensor_read_value self now regs).1 in
  (DailyResetSensor_read_value self now regs).2 = Ok None
  /\ last_value after = None
  /\ last_value_ts after = now
  /\ DailyResetSensor_read_value after later regs' = (after, Raise TypeError)
  /\ (forall (other : DailyResetSensor) (last : float) (value : option float)
        (t : datetime) (r : registers),
         last_value other = Some last ->
         read_value (delegate other) r = Ok value ->
         exists returned, (DailyResetSensor_read_value other t r).2 = Ok returned).
Proof.
  intros Habsent Hpresent Hday after.
  assert (Hafter : DailyResetSensor_read_value self now regs
                   = ({| delegate := delegate self; last_value := None;
                         last_value_ts := now |}, Ok None))
    by (rewrite (daily_reset_unfold _ _ _ _ Habsent); reflexivity).
  subst after. rewrite Hafter. cbn [fst snd last_value last_value_ts].
  do 3 (split; [reflexivity|]). split.
  - rewrite (daily_reset_unfold _ later regs' (Some v)) by exact Hpresent.
    unfold must_reset. cbn [last_value last_value_ts].
    apply Z.eqb_neq in Hday. rewrite Hday. reflexivity.
  - intros other last value t r Hl Hd.
    rewrite (daily_reset_number other t r value last Hd Hl).
    destruct value as [v'|]; [destruct (negb _ && _)|]; eauto.
Qed.

Lemma daily_reset_absent_then_present_witness :
  (read_value (delegate (daily (Some 0%float) yesterday)) ∅ = Ok None
   /\ read_value (delegate (daily (Some 0%float) yesterday)) regs5 = Ok (Some 5%float)
   /\ day today <> day yesterday)
  /\ (DailyResetSensor_read_value (daily (Some 0%float) yesterday) yesterday ∅).1
     = daily None yesterday
  /\ DailyResetSensor_read_value (daily None yesterday) today regs5
     = (daily None yesterday, Raise TypeError).
Proof.
  assert (Hday : day today <> day yesterday) by discriminate.
  split; [split; [reflexivity|split; [reflexivity|exact Hday]]|].
  split; [reflexivity|].
  exact (proj1 (proj2 (proj2 (proj2
           (daily_reset_absent_then_present (daily (Some 0%float) yesterday)
              yesterday today ∅ regs5 5%float eq_refl eq_refl Hday))))).
Defined.

(** C10 as stated fails: a month after the absent read the calendar day
    has changed, yet the day of the month has not, the comparison is not
    evaluated, and the read returns 5 and stores it. *)
Lemma daily_reset_absent_month_apart :
  (DailyResetSensor_read_value (daily (Some 0%float) yesterday) yesterday ∅).1
  = daily None yesterday
  /\ date a_month_later <> date yesterday
  /\ read_value (delegate (daily None yesterday)) regs5 = Ok (Some 5%float)
  /\ DailyResetSensor_read_value (daily None yesterday) a_month_later regs5
     = (daily (Some 5%float) a_month_later, Ok (Some 5%float))
  /\ (DailyResetSensor_read_value (daily None yesterday) a_month_later regs5).2
     <> Raise TypeError.
Proof.
  split; [reflexivity|]. split; [discriminate|]. do 2 (split; [reflexivity|]).
  returns_differ.
Qed.

(** ** Register ranges *)

(** C3. The example catalog with both groups active and a limit of 10:
    every range passes the filter, the repeated (10, 20) is dropped and
    its first occurrence kept, and the split yields the four ranges in
    this order; the sub-ranges of each parent span the parent's addresses
    once each, in order. *)
Theorem consolidation_example :
  filter_reg_ranges sample_catalog ["g1"; "g2"] = sample_catalog
  /\ remove_duplicated_reg_ranges sample_catalog
     = [range_of "g1" 10 20; range_of "g2" 30 45]
  /\ SensorRegisterRanges_init sample_catalog ["g1"; "g2"] 10
     = Ok [range_of "g1" 10 19; range_of "g1" 20 20;
           range_of "g2" 30 39; range_of "g2" 40 45]
  /\ addresses (range_of "g1" 10 19) ++ addresses (range_of "g1" 20 20)
     = addresses (range_of "g1" 10 20)
  /\ addresses (range_of "g2" 30 39) ++ addresses (range_of "g2" 40 45)
     = addresses (range_of "g2" 30 45).
Proof. repeat split; vm_compute; reflexivity. Qed.

(** A later range with the same bounds is dropped whatever its group. *)
Example duplicate_with_other_group :
  remove_duplicated_reg_ranges [range_of "g1" 10 20; range_of "g2" 10 20]
  = [range_of "g1" 10 20].
Proof. vm_compute. reflexivity. Qed.

(** ** Group membership and construction *)

Lemma NamedSensor_init_empty (name mqtt_topic_suffix unit_ print_format : string) :
  NamedSensor_init name mqtt_topic_suffix unit_ print_format [] = Raise AssertionError.
Proof. reflexivity. Qed.

Lemma NamedSensor_init_groups (name mqtt_topic_suffix unit_ print_format : string)
    (gs : list string) (n : NamedSensor) :
  NamedSensor_init name mqtt_topic_suffix unit_ print_format gs = Ok n ->
  groups n = gs /\ gs <> [].
Proof.
  unfold NamedSensor_init. destruct gs as [|g gs]; [discriminate|].
  change (0 <? Z.of_nat (length (g :: gs))) with (0 <? Z.pos (Pos.of_succ_nat (length gs))).
  intros [= <-]. split; [reflexivity | discriminate].
Qed.

(** C9, as the code has it. A sensor whose [groups] is empty is in any
    set of active groups, while a range whose [group] is empty is in none.
    Every constructor of a named sensor raises [AssertionError] on empty
    [groups], so a constructed sensor has a group. *)
Theorem in_any_group_of_empty :
  (forall (s : Sensor) (active_groups : gset string),
      groups (named s) = [] -> in_any_group s active_groups = true)
  /\ (forall (r : SensorRegisterRange) (active_groups : gset string),
         group r = ∅ -> SensorRegisterRange_in_any_group r active_groups = false)
  /\ (forall name reg_address factor offset signed suffix unit_ fmt,
         SingleRegisterSensor_init name reg_address factor offset signed
           suffix unit_ fmt [] = Raise AssertionError)
  /\ (forall name reg_address factor offset signed suffix unit_ fmt low_first,
         DoubleRegisterSensor_init name reg_address factor offset signed
           suffix unit_ fmt [] low_first = Raise AssertionError)
  /\ (forall name voltage current suffix unit_ fmt,
         ComputedPowerSensor_init name voltage current suffix unit_ fmt []
         = Raise AssertionError)
  /\ (forall name sensors suffix unit_ fmt,
         ComputedSumSensor_init name sensors suffix unit_ fmt []
         = Raise AssertionError)
  /\ (forall name suffix unit_ fmt,
         AggregatedValueSensor_init name suffix unit_ fmt [] = Raise AssertionError)
  /\ (forall name reg_address factor offset signed suffix unit_ fmt gs s,
         SingleRegisterSensor_init name reg_address factor offset signed
           suffix unit_ fmt gs = Ok s ->
         groups (single_named s) <> [])
  /\ (forall name reg_address factor offset signed suffix unit_ fmt gs low_first s,
         DoubleRegisterSensor_init name reg_address factor offset signed
           suffix unit_ fmt gs low_first = Ok s ->
         groups (double_named s) <> []).
Proof.
  split; [|split].
  - intros s active Hg. unfold in_any_group, NamedSensor_in_any_group.
    rewrite Hg. reflexivity.
  - intros r active Hg. unfold SensorRegisterRange_in_any_group.
    rewrite Hg, intersection_empty_l_L, size_empty. reflexivity.
  - repeat split; try reflexivity.
    + intros name a f o sg suffix u fmt gs s.
      unfold SingleRegisterSensor_init.
      destruct (NamedSensor_init name suffix u fmt gs) as [n|e] eqn:E; [|discriminate].
      apply NamedSensor_init_groups in E as [Hg Hne].
      intros [= <-]. cbn [single_named]. rewrite Hg. exact Hne.
    + intros name a f o sg suffix u fmt gs lf s.
      unfold DoubleRegisterSensor_init.
      destruct (NamedSensor_init name suffix u fmt gs) as [n|e] eqn:E; [|discriminate].
      apply NamedSensor_init_groups in E as [Hg Hne].
      intros [= <-]. cbn [double_named]. rewrite Hg. exact Hne.
Qed.

(** C9 as stated fails for ranges: a range with no group is not in the
    active groups. *)
Lemma range_without_group_matches_nothing :
  group (SensorRegisterRange_init (GroupSet ∅) 10 20) = ∅
  /\ SensorRegisterRange_in_any_group
       (SensorRegisterRange_init (GroupSet ∅) 10 20) {[ "g1" ]} = false
  /\ SensorRegisterRange_in_any_group
       (SensorRegisterRange_init (GroupSet ∅) 10 20) {[ "g1" ]} <> true.
Proof. repeat split. discriminate. Qed.

Lemma in_any_group_of_empty_witness :
  let ungrouped := {| name := "total"; mqtt_topic_suffix := ""; unit_ := "";
                      print_format := ""; groups := [] |} in
  in_any_group (AggregatedValue ungrouped) {[ "g1" ]} = true
  /\ SensorRegisterRange_in_any_group
       (SensorRegisterRange_init (GroupSet ∅) 10 20) {[ "g1" ]} = false
  /\ (SingleRegisterSensor_init "AC voltage" 73 0.1 0 false "ac/voltage" "V"
        "{:0.1f}" ["micro"] = Ok tenths_sensor
      /\ groups (single_named tenths_sensor) <> []).
Proof.
  intros ungrouped. split; [|split; [|split; [reflexivity|]]].
  - exact (proj1 in_any_group_of_empty (AggregatedValue ungrouped) {[ "g1" ]} eq_refl).
  - exact (proj1 (proj2 in_any_group_of_empty)
             (SensorRegisterRange_init (GroupSet ∅) 10 20) {[ "g1" ]} eq_refl).
  - exact (proj1 (proj2 (proj2 (proj2 (proj2 (proj2 (proj2 (proj2
             in_any_group_of_empty)))))))
             "AC voltage" 73 0.1%float 0%float false "ac/voltage" "V" "{:0.1f}"
             ["micro"] tenths_sensor eq_refl).
Defined.

(** ** Splitting in general *)

Lemma ceil_div_bounds (a b c : Z) :
  0 < b -> ceil_div a b = Ok c -> (c - 1) * b < a <= c * b.
Proof.
  unfold ceil_div. intros Hb. destruct (b =? 0) eqn:E; [discriminate|].
  intros [= <-]. pose proof (Z.div_mod (- a) b ltac:(lia)).
  pose proof (Z.mod_pos_bound (- a) b Hb). nia.
Qed.

Lemma split_prefix_covers (r : SensorRegisterRange) (n : Z) (k : nat) :
  0 < n ->
  (Z.of_nat k - 1) * n < SensorRegisterRange_length r ->
  concat (map addresses
            (map (fun i =>
                    {| group := group r;
                       first_reg_address := first_reg_address r + i * n;
                       last_reg_address :=
                         Z.min (first_reg_address r + i * n + n - 1)
                               (last_reg_address r) |})
                 (seqZ 0 (Z.of_nat k))))
  = seqZ (first_reg_address r)
         (Z.min (Z.of_nat k * n) (SensorRegisterRange_length r)).
Proof.
  intros Hn. induction k as [|k IH]; intros Hk.
  - simpl. rewrite seqZ_nil; [reflexivity|].
    unfold SensorRegisterRange_length in *. lia.
  - rewrite seqZ_S, !map_app, concat_app, IH by lia.
    simpl. rewrite app_nil_r.
    unfold addresses at 1, SensorRegisterRange_length at 2.
    cbn [first_reg_address last_reg_address].
    unfold SensorRegisterRange_length in *.
    replace (Z.min (Z.of_nat k * n) (last_reg_address r - first_reg_address r + 1))
      with (Z.of_nat k * n) by lia.
    rewrite <- seqZ_app by lia. f_equal. lia.
Qed.

(** Splitting a range at a positive length yields sub-ranges that carry
    the parent's group, are each between 1 and that length long, and
    together span the parent's addresses once each, in order. *)
Lemma split_covers (r : SensorRegisterRange) (n : Z)
    (subs : list SensorRegisterRange) :
  0 < n -> first_reg_address r <= last_reg_address r ->
  SensorRegisterRange_split r n = Ok subs ->
  concat (map addresses subs) = addresses r
  /\ Forall (fun s => group s = group r
                      /\ 1 <= SensorRegisterRange_length s <= n) subs.
Proof.
  intros Hn Hr. unfold SensorRegisterRange_split.
  destruct (ceil_div (SensorRegisterRange_length r) n) as [c|e] eqn:Hc; [|discriminate].
  pose proof (ceil_div_bounds _ _ _ Hn Hc) as Hb.
  intros [= <-].
  assert (Hlen : 1 <= SensorRegisterRange_length r)
    by (unfold SensorRegisterRange_length; lia).
  assert (Hc0 : 0 <= c) by nia.
  split.
  - rewrite <- (Z2Nat.id c Hc0).
    rewrite split_prefix_covers by (rewrite ?Z2Nat.id; lia).
    unfold addresses. f_equal. rewrite Z2Nat.id by lia. lia.
  - apply Forall_forall. intros s Hs.
    apply list_elem_of_In, in_map_iff in Hs as [i [<- Hi]].
    apply list_elem_of_In, elem_of_seqZ in Hi.
    unfold SensorRegisterRange_length in *.
    cbn [group first_reg_address last_reg_address].
    split; [reflexivity|]. nia.
Qed.

(** ** Deduplication in general *)

Lemma same_range_filter_nil (acc : list SensorRegisterRange)
    (x : SensorRegisterRange) :
  List.filter (fun r => SensorRegisterRange_is_same_range r x) acc = []
  <-> existsb (fun r => SensorRegisterRange_is_same_range r x) acc = false.
Proof.
  induction acc as [|r acc IH]; simpl; [tauto|].
  destruct (SensorRegisterRange_is_same_range r x); simpl; [|exact IH].
  split; discriminate.
Qed.

Lemma dedupe_step (acc : list SensorRegisterRange) (x : SensorRegisterRange) :
  match List.filter (fun r => SensorRegisterRange_is_same_range r x) acc with
  | [] => acc ++ [x]
  | _ => acc
  end
  = if existsb (fun r => SensorRegisterRange_is_same_range r x) acc
    then acc else acc ++ [x].
Proof.
  destruct (existsb _ acc) eqn:E.
  - destruct (List.filter _ acc) eqn:F; [|reflexivity].
    apply same_range_filter_nil in F. congruence.
  - apply same_range_filter_nil in E. rewrite E. reflexivity.
Qed.

Lemma unmatched_app (acc : list SensorRegisterRange) (x : SensorRegisterRange)
    (l : list SensorRegisterRange) :
  List.filter
    (fun y => negb (existsb (fun r => SensorRegisterRange_is_same_range r y)
                            (acc ++ [x]))) l
  = List.filter
      (fun y => negb (existsb (fun r => SensorRegisterRange_is_same_range r y) [x]))
      (List.filter
         (fun y => negb (existsb (fun r => SensorRegisterRange_is_same_range r y)
                                 acc)) l).
Proof.
  induction l as [|y l IH]; [reflexivity|].
  cbn [List.filter]. rewrite existsb_app.
  destruct (existsb _ acc); cbn [orb negb]; [exact IH|].
  cbn [List.filter]. destruct (negb (existsb _ [x])); rewrite IH; reflexivity.
Qed.

(** The loop started from [acc] keeps [acc], and goes on as from nothing
    over the ranges that no element of [acc] matches. *)
Lemma dedupe_from (n : nat) :
  forall (l acc : list SensorRegisterRange),
    (length l <= n)%nat ->
    fold_left
      (fun result reg_range =>
         match List.filter
                 (fun r => SensorRegisterRange_is_same_range r reg_range)
                 result with
         | [] => result ++ [reg_range]
         | _ => result
         end) l acc
    = acc ++ remove_duplicated_reg_ranges
               (List.filter
                  (fun x => negb (existsb
                                    (fun r => SensorRegisterRange_is_same_range r x)
                                    acc)) l).
Proof.
  unfold remove_duplicated_reg_ranges.
  induction n as [|n IH]; intros l acc Hlen.
  - destruct l; [simpl; rewrite app_nil_r; reflexivity | simpl in Hlen; lia].
  - destruct l as [|x l]; [simpl; rewrite app_nil_r; reflexivity|].
    simpl in Hlen. cbn [fold_left List.filter]. rewrite dedupe_step.
    destruct (existsb _ acc) eqn:E; cbn [negb].
    + apply IH. lia.
    + cbn [fold_left List.filter app].
      rewrite (IH l (acc ++ [x])) by lia.
      rewrite (IH (List.filter _ l) [x]).
      2:{ pose proof (filter_length_le
                        (fun x0 => negb (existsb
                           (fun r => SensorRegisterRange_is_same_range r x0) acc)) l).
          lia. }
      rewrite <- app_assoc, unmatched_app. reflexivity.
Qed.

(** The first range is kept as it is, group included; every later range
    with the same bounds is dropped, whatever its group; the others are
    deduplicated in turn. *)
Lemma remove_duplicated_cons (r : SensorRegisterRange)
    (l : list SensorRegisterRange) :
  remove_duplicated_reg_ranges (r :: l)
  = r :: remove_duplicated_reg_ranges
           (List.filter (fun x => negb (SensorRegisterRange_is_same_range r x)) l).
Proof.
  unfold remove_duplicated_reg_ranges at 1. cbn [fold_left List.filter app].
  rewrite (dedupe_from (length l) l [r] (Nat.le_refl _)). cbn [app].
  do 2 f_equal. apply filter_ext. intros x. cbn [existsb].
  rewrite orb_false_r. reflexivity.
Qed.

(** * Further properties of the code *)

(** ** Leaf decoders *)

Lemma length_word_bytes (w : Z) : length (word_bytes w) = 2%nat.
Proof. reflexivity. Qed.

Lemma int_from_bytes_word (w : Z) (sg : bool) :
  0 <= w < 2 ^ 16 ->
  int_from_bytes (word_bytes w) sg
  = if sg && (2 ^ 15 <=? w) then w - 2 ^ 16 else w.
Proof.
  intros Hw. unfold int_from_bytes, twos_complement.
  rewrite from_bytes_unsigned_word, length_word_bytes by exact Hw.
  destruct sg; reflexivity.
Qed.

(** X1. The single-register read decodes a stored 16-bit value as an
    unsigned integer, or in two's complement when the sensor is signed,
    before scaling; it is [None] exactly when the register is missing. *)
Theorem single_register_read (self : SingleRegisterSensor) (regs : registers) :
  (forall w : Z,
      0 <= w < 2 ^ 16 ->
      regs !! reg_address self = Some (word_bytes w) ->
      SingleRegisterSensor_read_value self regs
      = Some (scale (if signed self && (2 ^ 15 <=? w) then w - 2 ^ 16 else w)
                    (factor self) (offset self)))
  /\ (SingleRegisterSensor_read_value self regs = None
      <-> regs !! reg_address self = None).
Proof.
  unfold SingleRegisterSensor_read_value. split.
  - intros w Hw Hr. rewrite Hr, int_from_bytes_word by exact Hw. reflexivity.
  - destruct (regs !! reg_address self); split; (discriminate || reflexivity).
Qed.

(** 0xFFFE is -2 for a signed sensor and 65534 for an unsigned one. *)
Lemma single_register_read_witness :
  let signed_units :=
    {| single_named := sample_named; reg_address := 60; factor := 1;
       offset := 0; signed := true |} in
  let regs : registers := {[ 60 := word_bytes 65534 ]} in
  (0 <= 65534 < 2 ^ 16 /\ regs !! 60 = Some (word_bytes 65534))
  /\ SingleRegisterSensor_read_value signed_units regs = Some (-2)%float
  /\ SingleRegisterSensor_read_value units_sensor regs = Some 65534%float.
Proof.
  intros signed_units regs. split; [split; [lia | reflexivity]|]. split.
  - exact (proj1 (single_register_read signed_units regs) 65534
                 ltac:(lia) eq_refl).
  - exact (proj1 (single_register_read units_sensor regs) 65534
                 ltac:(lia) eq_refl).
Defined.

Lemma lor_shiftl_16 (x lo : Z) :
  0 <= lo < 2 ^ 16 -> Z.lor (Z.shiftl x 16) lo = x * 2 ^ 16 + lo.
Proof.
  intros Hlo. rewrite <- Z.shiftl_mul_pow2 by lia.
  assert (Hdisj : Z.land (Z.shiftl x 16) lo = 0).
  { apply Z.bits_inj'. intros n Hn. rewrite Z.land_spec, Z.bits_0.
    destruct (Z_lt_le_dec n 16) as [Hlt|Hge].
    - rewrite Z.shiftl_spec_low by exact Hlt. reflexivity.
    - rewrite (high_bits_clear lo n Hlo Hge). apply andb_false_r. }
  rewrite (Z.add_nocarry_lxor _ _ Hdisj). symmetry. apply Z.lxor_lor, Hdisj.
Qed.

(** X2. The signed-magnitude double-register read takes the high word at
    the sensor's address and the low word at the next one, whatever
    [low_word_first] says: the magnitude is the low 15 bits of the high
    word above the 16 bits of the low word, negated when bit 15 of the high
    word is set; with either register missing it is [None]. *)
Theorem signed_magnitude_double_read (self : DoubleRegisterSensor)
    (regs : registers) :
  (forall hi lo m : Z,
      0 <= hi < 2 ^ 16 -> 0 <= lo < 2 ^ 16 ->
      m = Z.lor (Z.shiftl (hi mod 2 ^ 15) 16) lo ->
      regs !! dreg_address self = Some (word_bytes hi) ->
      regs !! (dreg_address self + 1) = Some (word_bytes lo) ->
      SignedMagnitudeDoubleRegisterSensor_read_value self regs
      = Ok (Some (if Z.testbit hi 15
                  then scale (- m) (dfactor self) (doffset self)
                  else scale m (dfactor self) (doffset self))))
  /\ (regs !! dreg_address self = None \/ regs !! (dreg_address self + 1) = None ->
      SignedMagnitudeDoubleRegisterSensor_read_value self regs = Ok None).
Proof.
  unfold SignedMagnitudeDoubleRegisterSensor_read_value. split.
  - intros hi lo m Hhi Hlo -> Hh Hl. rewrite Hh, Hl.
    rewrite (sign_bit_set_word hi Hhi). cbn [mbind result_bind].
    unfold int_from_bytes. rewrite from_bytes_unsigned_words by assumption.
    change 2147483647 with (Z.ones 31). rewrite Z.land_ones by lia.
    assert (Hm : (Z.lor (Z.shiftl hi 16) lo) mod 2 ^ 31
                 = Z.lor (Z.shiftl (hi mod 2 ^ 15) 16) lo).
    { rewrite !lor_shiftl_16 by exact Hlo.
      pose proof (Z.div_mod hi (2 ^ 15) ltac:(lia)) as Hd.
      pose proof (Z.mod_pos_bound hi (2 ^ 15) ltac:(lia)) as Hb.
      symmetry. apply Z.mod_unique with (q := hi / 2 ^ 15); lia. }
    rewrite Hm.
    replace (-1 * Z.lor (Z.shiftl (hi mod 2 ^ 15) 16) lo)
      with (- Z.lor (Z.shiftl (hi mod 2 ^ 15) 16) lo) by lia.
    destruct (Z.testbit hi 15); reflexivity.
  - intros Hnone.
    destruct (regs !! dreg_address self) as [w0|] eqn:E0,
             (regs !! (dreg_address self + 1)) as [w1|] eqn:E1;
      try reflexivity; destruct Hnone; discriminate.
Qed.

(** The words 0x8001, 0x0002 are -(0x00010002) = -65538. *)
Lemma signed_magnitude_double_read_witness :
  (0 <= 32769 < 2 ^ 16 /\ 0 <= 2 < 2 ^ 16
   /\ 65538 = Z.lor (Z.shiftl (32769 mod 2 ^ 15) 16) 2)
  /\ SignedMagnitudeDoubleRegisterSensor_read_value (double_sensor true)
       (sample_regs 32769 2)
     = Ok (Some (scale (-65538) 0.1 0))
  /\ SignedMagnitudeDoubleRegisterSensor_read_value (double_sensor true)
       {[ 64 := word_bytes 2 ]} = Ok None.
Proof.
  split; [repeat split; (lia || reflexivity)|]. split.
  - exact (proj1 (signed_magnitude_double_read (double_sensor true)
                    (sample_regs 32769 2))
                 32769 2 65538 ltac:(lia) ltac:(lia) eq_refl eq_refl eq_refl).
  - exact (proj2 (signed_magnitude_double_read (double_sensor true)
                    {[ 64 := word_bytes 2 ]}) (or_introl eq_refl)).
Defined.

(** X3. A leaf decoder returns [None] exactly when one of the registers
    it reports through [get_registers] is missing from the snapshot. *)
Theorem leaf_read_absent_iff (s : Sensor) (regs : registers) :
  is_leaf s = true ->
  read_value s regs = Ok None
  <-> exists a : Z, In a (get_registers s) /\ regs !! a = None.
Proof.
  destruct s as [s|s|s|s| | |]; try discriminate; intros _;
    cbn [read_value get_registers].
  - unfold SingleRegisterSensor_read_value.
    destruct (regs !! reg_address s) eqn:E; split.
    + discriminate.
    + intros [a [[<-|[]] Ha]]. congruence.
    + intros _. exists (reg_address s). split; [now left | exact E].
    + reflexivity.
  - unfold DoubleRegisterSensor_read_value.
    destruct (low_word_first s); rewrite ?Z.add_0_r;
      destruct (regs !! dreg_address s) eqn:E0,
               (regs !! (dreg_address s + 1)) eqn:E1;
      (split;
       [ first [ discriminate
               | intros _; first
                   [ exists (dreg_address s); split; [now left | exact E0]
                   | exists (dreg_address s + 1); split;
                     [right; now left | exact E1] ] ]
       | first [ reflexivity
               | intros [a [[<-|[<-|[]]] Ha]]; congruence ] ]).
  - unfold SignedMagnitudeSingleRegisterSensor_read_value.
    destruct (regs !! reg_address s) as [b|] eqn:E; split.
    + destruct (sign_bit_set b) as [[|]|e]; discriminate.
    + intros [a [[<-|[]] Ha]]. congruence.
    + intros _. exists (reg_address s). split; [now left | exact E].
    + reflexivity.
  - unfold SignedMagnitudeDoubleRegisterSensor_read_value.
    destruct (regs !! dreg_address s) as [hw|] eqn:E0,
             (regs !! (dreg_address s + 1)) as [lw|] eqn:E1;
      (split;
       [ first [ destruct (sign_bit_set hw) as [[|]|e]; discriminate
               | intros _; first
                   [ exists (dreg_address s); split; [now left | exact E0]
                   | exists (dreg_address s + 1); split;
                     [right; now left | exact E1] ] ]
       | first [ reflexivity
               | intros [a [[<-|[<-|[]]] Ha]]; congruence ] ]).
Qed.

Lemma leaf_read_absent_iff_witness :
  is_leaf (Double (double_sensor true)) = true
  /\ (exists a : Z,
         In a (get_registers (Double (double_sensor true)))
         /\ ({[ 63 := word_bytes 7 ]} : registers) !! a = None)
  /\ read_value (Double (double_sensor true)) {[ 63 := word_bytes 7 ]} = Ok None.
Proof.
  assert (Hmiss : exists a : Z,
             In a (get_registers (Double (double_sensor true)))
             /\ ({[ 63 := word_bytes 7 ]} : registers) !! a = None)
    by (exists 64; split; [right; now left | reflexivity]).
  split; [reflexivity|]. split; [exact Hmiss|].
  exact (proj2 (leaf_read_absent_iff (Double (double_sensor true))
                  {[ 63 := word_bytes 7 ]} eq_refl) Hmiss).
Defined.

(** X4. What a leaf decoder returns depends only on the registers it
    reports through [get_registers]: two snapshots that agree on them give
    the same result, raised exceptions included. *)
Theorem leaf_read_frame (s : Sensor) (regs regs' : registers) :
  is_leaf s = true ->
  (forall a : Z, In a (get_registers s) -> regs !! a = regs' !! a) ->
  read_value s regs = read_value s regs'.
Proof.
  destruct s as [s|s|s|s| | |]; try discriminate; intros _ Hsame;
    cbn [read_value get_registers] in *.
  - unfold SingleRegisterSensor_read_value.
    rewrite (Hsame (reg_address s)) by now left. reflexivity.
  - unfold DoubleRegisterSensor_read_value.
    destruct (low_word_first s); rewrite ?Z.add_0_r;
      rewrite (Hsame (dreg_address s)) by (now left);
      rewrite (Hsame (dreg_address s + 1)) by (right; now left); reflexivity.
  - unfold SignedMagnitudeSingleRegisterSensor_read_value.
    rewrite (Hsame (reg_address s)) by now left. reflexivity.
  - unfold SignedMagnitudeDoubleRegisterSensor_read_value.
    rewrite (Hsame (dreg_address s)) by (now left).
    rewrite (Hsame (dreg_address s + 1)) by (right; now left). reflexivity.
Qed.

(** A register the sensor does not report makes no difference. *)
Lemma leaf_read_frame_witness :
  is_leaf (Single units_sensor) = true
  /\ (forall a : Z,
         In a (get_registers (Single units_sensor)) ->
         regs5 !! a = (<[ 73 := word_bytes 43 ]> regs5) !! a)
  /\ read_value (Single units_sensor) regs5
     = read_value (Single units_sensor) (<[ 73 := word_bytes 43 ]> regs5).
Proof.
  assert (Hsame : forall a : Z,
             In a (get_registers (Single units_sensor)) ->
             regs5 !! a = (<[ 73 := word_bytes 43 ]> regs5) !! a).
  { intros a [<-|[]]. reflexivity. }
  split; [reflexivity|]. split; [exact Hsame|].
  exact (leaf_read_frame (Single units_sensor) regs5
           (<[ 73 := word_bytes 43 ]> regs5) eq_refl Hsame).
Defined.

(** ** Writing *)

Lemma int_to_bytes2_ok (v : Z) (sg : bool) (b : list byte) :
  int_to_bytes2 v sg = Ok b ->
  (if sg then - 2 ^ 15 <= v < 2 ^ 15 else 0 <= v < 2 ^ 16)
  /\ b = word_bytes (v mod 2 ^ 16).
Proof.
  unfold int_to_bytes2.
  destruct ((_ <=? v) && (v <? _)) eqn:E; [|discriminate].
  intros [= <-]. apply andb_true_iff in E as [E1 E2].
  apply Z.leb_le in E1. apply Z.ltb_lt in E2.
  split; [destruct sg; lia | reflexivity].
Qed.

Lemma int_to_bytes2_overflow (v : Z) (sg : bool) :
  (if sg then v < - 2 ^ 15 \/ 2 ^ 15 <= v else v < 0 \/ 2 ^ 16 <= v) ->
  int_to_bytes2 v sg = Raise OverflowError.
Proof.
  intros Hv. unfold int_to_bytes2.
  destruct ((_ <=? v) && (v <? _)) eqn:E; [|reflexivity].
  apply andb_true_iff in E as [E1 E2].
  apply Z.leb_le in E1. apply Z.ltb_lt in E2. destruct sg; lia.
Qed.

(** Decoding the two bytes of an integer in range gives the integer. *)
Lemma int_from_bytes_to_bytes2 (v : Z) (sg : bool) :
  (if sg then - 2 ^ 15 <= v < 2 ^ 15 else 0 <= v < 2 ^ 16) ->
  int_from_bytes (word_bytes (v mod 2 ^ 16)) sg = v.
Proof.
  intros Hv.
  rewrite int_from_bytes_word by (apply Z.mod_pos_bound; lia).
  destruct sg; cbn [andb]; [|apply Z.mod_small; lia].
  destruct (Z_lt_le_dec v 0) as [Hneg|Hpos].
  - assert (E : v mod 2 ^ 16 = v + 2 ^ 16)
      by (symmetry; apply Z.mod_unique with (q := -1); lia).
    rewrite E. replace (2 ^ 15 <=? v + 2 ^ 16) with true
      by (symmetry; apply Z.leb_le; lia). lia.
  - rewrite Z.mod_small by lia.
    replace (2 ^ 15 <=? v) with false by (symmetry; apply Z.leb_gt; lia).
    reflexivity.
Qed.

Lemma write_value_ok (self : SingleRegisterSensor) (value : float)
    (written : registers) :
  SingleRegisterSensor_write_value self value = Ok written ->
  exists (q : float) (n : Z),
    truediv (value - offset self)%float (factor self) = Ok q
    /\ float_to_int q = Ok n
    /\ (if signed self then - 2 ^ 15 <= n < 2 ^ 15 else 0 <= n < 2 ^ 16)
    /\ written = {[ reg_address self := word_bytes (n mod 2 ^ 16) ]}.
Proof.
  unfold SingleRegisterSensor_write_value.
  destruct (truediv _ _) as [q|e] eqn:Hq; [|discriminate].
  cbn [mbind result_bind].
  destruct (float_to_int q) as [n|e] eqn:Hn; [|discriminate].
  cbn [mbind result_bind].
  destruct (int_to_bytes2 n (signed self)) as [b|e] eqn:E; [|discriminate].
  apply int_to_bytes2_ok in E as [Hr ->]. intros [= <-].
  exists q, n. repeat split; assumption || reflexivity.
Qed.

(** X5. When [write_value] returns, it returns exactly one entry, at the
    sensor's address, holding two bytes; and reading that mapping back
    gives the truncated quotient [int((value - offset) / factor)] scaled
    again, not the value that was written. *)
Theorem read_value_write_value (self : SingleRegisterSensor) (value : float)
    (written : registers) :
  SingleRegisterSensor_write_value self value = Ok written ->
  exists (q : float) (n : Z) (b0 b1 : byte),
    truediv (value - offset self)%float (factor self) = Ok q
    /\ float_to_int q = Ok n
    /\ written = {[ reg_address self := [b0; b1] ]}
    /\ SingleRegisterSensor_read_value self written
       = Some (scale n (factor self) (offset self)).
Proof.
  intros Hw. destruct (write_value_ok _ _ _ Hw) as (q & n & Hq & Hn & Hr & ->).
  exists q, n, (byte_of_Z (n mod 2 ^ 16 / 256)), (byte_of_Z (n mod 2 ^ 16)).
  split; [exact Hq|]. split; [exact Hn|]. split; [reflexivity|].
  unfold SingleRegisterSensor_read_value. rewrite lookup_singleton_eq.
  rewrite (int_from_bytes_to_bytes2 n (signed self) Hr). reflexivity.
Qed.

(** Writing 4.37 in tenths stores 43, which reads back as 4.3. *)
Lemma read_value_write_value_witness :
  SingleRegisterSensor_write_value tenths_sensor 4.37%float
  = Ok {[ 73 := word_bytes 43 ]}
  /\ exists (q : float) (n : Z) (b0 b1 : byte),
       truediv (4.37 - offset tenths_sensor)%float (factor tenths_sensor) = Ok q
       /\ float_to_int q = Ok n
       /\ ({[ 73 := word_bytes 43 ]} : registers)
          = {[ reg_address tenths_sensor := [b0; b1] ]}
       /\ SingleRegisterSensor_read_value tenths_sensor {[ 73 := word_bytes 43 ]}
          = Some (scale n (factor tenths_sensor) (offset tenths_sensor)).
Proof.
  assert (Hw : SingleRegisterSensor_write_value tenths_sensor 4.37%float
               = Ok {[ 73 := word_bytes 43 ]}) by (vm_compute; reflexivity).
  split; [exact Hw|].
  exact (read_value_write_value tenths_sensor 4.37%float _ Hw).
Defined.

(** X6. [write_value] raises instead of writing a wrapped or clamped
    value: [ZeroDivisionError] for every value when the factor is zero,
    and [OverflowError] when the truncated quotient does not fit the two
    bytes under the sensor's signedness (for an unsigned sensor, any
    negative quotient). *)
Theorem write_value_raises (self : SingleRegisterSensor) (value : float) :
  ((factor self =? 0)%float = true ->
   SingleRegisterSensor_write_value self value = Raise ZeroDivisionError)
  /\ (forall (q : float) (n : Z),
         truediv (value - offset self)%float (factor self) = Ok q ->
         float_to_int q = Ok n ->
         (if signed self then n < - 2 ^ 15 \/ 2 ^ 15 <= n
          else n < 0 \/ 2 ^ 16 <= n) ->
         SingleRegisterSensor_write_value self value = Raise OverflowError).
Proof.
  unfold SingleRegisterSensor_write_value. split.
  - intros Hz. unfold truediv. rewrite Hz. reflexivity.
  - intros q n Hq Hn Hr. rewrite Hq. cbn [mbind result_bind].
    rewrite Hn. cbn [mbind result_bind].
    rewrite (int_to_bytes2_overflow n (signed self) Hr). reflexivity.
Qed.

(** An unsigned sensor in units refuses -1 and 65536. *)
Lemma write_value_raises_witness :
  (truediv ((-1) - offset units_sensor)%float (factor units_sensor) = Ok (-1)%float
   /\ float_to_int (-1)%float = Ok (-1)
   /\ (-1 < 0 \/ 2 ^ 16 <= -1))
  /\ SingleRegisterSensor_write_value units_sensor (-1)%float = Raise OverflowError
  /\ ((0 =? 0)%float = true
      /\ SingleRegisterSensor_write_value
           {| single_named := sample_named; reg_address := 60; factor := 0;
              offset := 0; signed := false |} 5%float
         = Raise ZeroDivisionError).
Proof.
  split; [split; [reflexivity|split; [reflexivity|lia]]|]. split.
  - apply (proj2 (write_value_raises units_sensor (-1)%float) (-1)%float (-1));
      [reflexivity | reflexivity | left; lia].
  - split; [reflexivity|].
    exact (proj1 (write_value_raises
                    {| single_named := sample_named; reg_address := 60;
                       factor := 0; offset := 0; signed := false |} 5%float)
                 eq_refl).
Defined.



(** ** Composite sensors *)

(** X8. The power sensor multiplies voltage by current when both operands
    return a value, and returns [None] when either returns [None]; an
    exception of the voltage read, or of the current read after a voltage
    read that returned, is the exception of the power read. *)
Theorem computed_power_read (n : NamedSensor) (voltage_sensor current_sensor : Sensor)
    (regs : registers) :
  (forall voltage current : option float,
      read_value voltage_sensor regs = Ok voltage ->
      read_value current_sensor regs = Ok current ->
      read_value (ComputedPower n voltage_sensor current_sensor) regs
      = Ok (match voltage, current with
            | Some v, Some c => Some (v * c)%float
            | _, _ => None
            end))
  /\ (forall e : exn,
         read_value voltage_sensor regs = Raise e ->
         read_value (ComputedPower n voltage_sensor current_sensor) regs = Raise e)
  /\ (forall (voltage : option float) (e : exn),
         read_value voltage_sensor regs = Ok voltage ->
         read_value current_sensor regs = Raise e ->
         read_value (ComputedPower n voltage_sensor current_sensor) regs = Raise e).
Proof.
  cbn [read_value]. split; [|split].
  - intros voltage current -> ->. cbn [mbind result_bind].
    destruct voltage, current; reflexivity.
  - intros e ->. reflexivity.
  - intros voltage e -> ->. reflexivity.
Qed.

(** 230.5 V times 5 A; and no power without the current register. *)
Lemma computed_power_read_witness :
  let regs : registers := {[ 60 := word_bytes 5; 73 := word_bytes 2305 ]} in
  let power := ComputedPower sample_named (Single tenths_sensor) (Single units_sensor) in
  (read_value (Single tenths_sensor) regs = Ok (Some 230.5%float)
   /\ read_value (Single units_sensor) regs = Ok (Some 5%float))
  /\ read_value power regs = Ok (Some 1152.5%float)
  /\ read_value power {[ 73 := word_bytes 2305 ]} = Ok None.
Proof.
  intros regs power. split; [split; reflexivity|]. split.
  - exact (proj1 (computed_power_read sample_named (Single tenths_sensor)
                    (Single units_sensor) regs)
                 (Some 230.5%float) (Some 5%float) eq_refl eq_refl).
  - exact (proj1 (computed_power_read sample_named (Single tenths_sensor)
                    (Single units_sensor) {[ 73 := word_bytes 2305 ]})
                 (Some 230.5%float) None eq_refl eq_refl).
Defined.

Lemma collect_raises {A : Type} (before : list A) (e : exn)
    (after : list (result A)) :
  collect (map Ok before ++ Raise e :: after) = Raise e.
Proof.
  induction before as [|a before IH]; [reflexivity|].
  cbn [map app collect mbind result_bind]. rewrite IH. reflexivity.
Qed.

(** X9. The sum reads every operand before it adds anything: the first
    operand that raises makes the whole read raise that exception, even if
    an operand before it returned [None]; in particular a sum over an
    aggregated sensor never returns. *)
Theorem computed_sum_raises (n : NamedSensor) (before after : list Sensor)
    (s : Sensor) (e : exn) (regs : registers)
    (values : list (option float)) :
  Forall2 (fun s' v => read_value s' regs = Ok v) before values ->
  read_value s regs = Raise e ->
  read_value (ComputedSum n (before ++ s :: after)) regs = Raise e.
Proof.
  intros Hbefore Hs.
  change (read_value (ComputedSum n (before ++ s :: after)) regs)
    with (vs ← collect (map (fun s' => read_value s' regs) (before ++ s :: after));
          Ok (sum_values 0%float vs)).
  rewrite map_app. cbn [map]. rewrite Hs.
  assert (Hmap : map (fun s' => read_value s' regs) before = map Ok values).
  { induction Hbefore as [|s' v before values Hv _ IH]; [reflexivity|].
    cbn [map]. rewrite Hv, IH. reflexivity. }
  rewrite Hmap, collect_raises. reflexivity.
Qed.

(** An absent operand first, then an aggregated one: the read raises. *)
Lemma computed_sum_raises_witness :
  (Forall2 (fun s' v => read_value s' ∅ = Ok v) [Single units_sensor] [None]
   /\ read_value (AggregatedValue sample_named) ∅ = Raise RuntimeError)
  /\ read_value (ComputedSum sample_named
                   [Single units_sensor; AggregatedValue sample_named;
                    Single tenths_sensor]) ∅
     = Raise RuntimeError.
Proof.
  assert (H : Forall2 (fun s' v => read_value s' ∅ = Ok v)
                      [Single units_sensor] [None]) by (repeat constructor).
  split; [split; [exact H | reflexivity]|].
  exact (computed_sum_raises sample_named [Single units_sensor]
           [Single tenths_sensor] (AggregatedValue sample_named) RuntimeError ∅
           [None] H eq_refl).
Defined.

(** ** Successive reads of a daily-reset sensor *)

Lemma daily_reset_reads_cons (self : DailyResetSensor) (now : datetime)
    (regs : registers) (rest : list (datetime * registers)) :
  DailyResetSensor_reads self ((now, regs) :: rest)
  = ((DailyResetSensor_reads (DailyResetSensor_read_value self now regs).1 rest).1,
     (DailyResetSensor_read_value self now regs).2
     :: (DailyResetSensor_reads (DailyResetSensor_read_value self now regs).1 rest).2).
Proof.
  cbn [DailyResetSensor_reads].
  destruct (DailyResetSensor_read_value self now regs) as [self' r].
  cbn [fst snd]. destruct (DailyResetSensor_reads self' rest). reflexivity.
Qed.

(** X10. The synthetic reset is sticky: over a number in [last_value],
    as long as the reads fall on another day of the month than
    [last_value_ts] and the delegate's values are not below [last_value],
    every read returns 0 and the object does not change.  A freshly
    constructed sensor (last value 0) that is first read on another day of
    the month therefore reports 0 for every non-negative reading. *)
Theorem daily_reset_stays_at_zero (self : DailyResetSensor) (last : float)
    (reads : list (datetime * registers)) :
  last_value self = Some last ->
  Forall (fun r => day r.1 <> day (last_value_ts self)
                   /\ exists v : float,
                        read_value (delegate self) r.2 = Ok (Some v)
                        /\ (last <=? v)%float = true) reads ->
  DailyResetSensor_reads self reads
  = (self, map (fun _ => Ok (Some 0%float)) reads).
Proof.
  intros Hl Hreads. induction Hreads as [|[now regs] rest [Hday [v [Hv Hge]]] _ IH];
    [reflexivity|].
  cbn [fst snd] in *. rewrite daily_reset_reads_cons.
  rewrite (daily_reset_number self now regs (Some v) last Hv Hl).
  apply Z.eqb_neq in Hday. rewrite Hday, Hge. cbn [negb andb fst snd].
  rewrite IH. reflexivity.
Qed.

(** Constructed yesterday evening, read twice today with the counter at
    5: both reads report 0. *)
Lemma daily_reset_stays_at_zero_witness :
  let self := DailyResetSensor_init (Single units_sensor) yesterday in
  let reads := [(today, regs5); (at_date 2024 3 15 6 15, regs5)] in
  (last_value self = Some 0%float
   /\ Forall (fun r => day r.1 <> day (last_value_ts self)
                       /\ exists v : float,
                            read_value (delegate self) r.2 = Ok (Some v)
                            /\ (0 <=? v)%float = true) reads)
  /\ DailyResetSensor_reads self reads
     = (self, [Ok (Some 0%float); Ok (Some 0%float)]).
Proof.
  intros self reads.
  assert (H : Forall (fun r => day r.1 <> day (last_value_ts self)
                               /\ exists v : float,
                                    read_value (delegate self) r.2 = Ok (Some v)
                                    /\ (0 <=? v)%float = true) reads).
  { repeat constructor; try discriminate;
      exists 5%float; split; reflexivity. }
  split; [split; [reflexivity | exact H]|].
  exact (daily_reset_stays_at_zero self 0%float reads eq_refl H).
Defined.

Lemma daily_reset_same_day (self : DailyResetSensor) (now : datetime)
    (regs : registers) (value : option float) :
  read_value (delegate self) regs = Ok value ->
  day now = day (last_value_ts self) ->
  DailyResetSensor_read_value self now regs
  = ({| delegate := delegate self; last_value := value; last_value_ts := now |},
     Ok value).
Proof.
  intros Hv Hday. rewrite (daily_reset_unfold _ _ _ _ Hv). unfold must_reset.
  apply Z.eqb_eq in Hday. rewrite Hday. destruct value; reflexivity.
Qed.

Lemma last_cons {A : Type} (x : A) (l : list A) (d : A) :
  List.last (x :: l) d = List.last l x.
Proof.
  revert x d. induction l as [|y l IH]; intros x d; [reflexivity|].
  change (List.last (x :: y :: l) d) with (List.last (y :: l) d).
  rewrite (IH y d), (IH y x). reflexivity.
Qed.

Lemma daily_reset_transparent_from (d : Sensor) (D : Z)
    (reads : list (datetime * registers)) (values : list (option float)) :
  Forall2 (fun r v => day r.1 = D /\ read_value d r.2 = Ok v) reads values ->
  forall self : DailyResetSensor,
    delegate self = d -> day (last_value_ts self) = D ->
    (DailyResetSensor_reads self reads).2 = map Ok values
    /\ last_value (DailyResetSensor_reads self reads).1
       = List.last values (last_value self)
    /\ delegate (DailyResetSensor_reads self reads).1 = d
    /\ day (last_value_ts (DailyResetSensor_reads self reads).1) = D.
Proof.
  induction 1 as [|[now regs] v rest values [Hday Hv] _ IH];
    intros self Hd HD.
  - cbn. repeat split; assumption.
  - cbn [fst snd] in *. rewrite daily_reset_reads_cons.
    rewrite (daily_reset_same_day self now regs v)
      by (rewrite ?Hd, ?HD; assumption).
    cbn [fst snd].
    destruct (IH {| delegate := delegate self; last_value := v;
                    last_value_ts := now |} Hd Hday) as (Hr & Hl & Hd' & HD').
    cbn [last_value] in Hl. rewrite Hr, Hl, Hd', HD', last_cons.
    repeat split.
Qed.

(** X11. Within one day of the month the wrapper is transparent: when
    every read falls on the day of the month of [last_value_ts], each read
    returns what the delegate returned, [None] included, whatever
    [last_value] holds, and afterwards [last_value] is the last value
    returned. *)
Theorem daily_reset_transparent (self : DailyResetSensor)
    (reads : list (datetime * registers)) (values : list (option float)) :
  Forall2 (fun r v => day r.1 = day (last_value_ts self)
                      /\ read_value (delegate self) r.2 = Ok v) reads values ->
  (DailyResetSensor_reads self reads).2 = map Ok values
  /\ last_value (DailyResetSensor_reads self reads).1
     = List.last values (last_value self).
Proof.
  intros H.
  destruct (daily_reset_transparent_from _ _ _ _ H self eq_refl eq_refl)
    as (Hr & Hl & _). split; assumption.
Qed.

(** Two reads today over a [None] left by an absent read: 5, then
    nothing. *)
Lemma daily_reset_transparent_witness :
  let reads := [(today, regs5); (at_date 2024 3 15 6 15, ∅)] in
  Forall2 (fun r v => day r.1 = day (last_value_ts (daily None today))
                      /\ read_value (delegate (daily None today)) r.2 = Ok v)
          reads [Some 5%float; None]
  /\ (DailyResetSensor_reads (daily None today) reads).2
     = [Ok (Some 5%float); Ok None]
  /\ last_value (DailyResetSensor_reads (daily None today) reads).1 = None.
Proof.
  intros reads.
  assert (H : Forall2 (fun r v => day r.1 = day (last_value_ts (daily None today))
                                  /\ read_value (delegate (daily None today)) r.2
                                     = Ok v)
                      reads [Some 5%float; None])
    by (repeat constructor).
  split; [exact H|].
  exact (daily_reset_transparent (daily None today) reads _ H).
Defined.

(** X12. The [TypeError] repeats: once [None] is stored, every read of a
    present value on another day of the month than [last_value_ts] raises
    and leaves the object as it was, so the failure goes on until a read
    falls on that day of the month again or the delegate's value is
    absent. *)
Theorem daily_reset_keeps_raising (self : DailyResetSensor)
    (reads : list (datetime * registers)) :
  last_value self = None ->
  Forall (fun r => day r.1 <> day (last_value_ts self)
                   /\ exists v : float,
                        read_value (delegate self) r.2 = Ok (Some v)) reads ->
  DailyResetSensor_reads self reads
  = (self, map (fun _ => Raise TypeError) reads).
Proof.
  intros Hl Hreads. induction Hreads as [|[now regs] rest [Hday [v Hv]] _ IH];
    [reflexivity|].
  cbn [fst snd] in *. rewrite daily_reset_reads_cons.
  rewrite (daily_reset_unfold self now regs (Some v) Hv).
  unfold must_reset, value_ge. apply Z.eqb_neq in Hday. rewrite Hday, Hl.
  cbn [negb fst snd]. rewrite IH. reflexivity.
Qed.

Lemma daily_reset_keeps_raising_witness :
  let reads := [(today, regs5); (at_date 2024 3 16 6 10, regs5)] in
  (last_value (daily None yesterday) = None
   /\ Forall (fun r => day r.1 <> day (last_value_ts (daily None yesterday))
                       /\ exists v : float,
                            read_value (delegate (daily None yesterday)) r.2
                            = Ok (Some v)) reads)
  /\ DailyResetSensor_reads (daily None yesterday) reads
     = (daily None yesterday, [Raise TypeError; Raise TypeError]).
Proof.
  intros reads.
  assert (H : Forall (fun r => day r.1 <> day (last_value_ts (daily None yesterday))
                               /\ exists v : float,
                                    read_value (delegate (daily None yesterday)) r.2
                                    = Ok (Some v)) reads).
  { repeat constructor; try discriminate; exists 5%float; reflexivity. }
  split; [split; [reflexivity | exact H]|].
  exact (daily_reset_keeps_raising (daily None yesterday) reads eq_refl H).
Defined.

(** ** Group membership *)

Lemma size_pos_iff (X : gset string) :
  (0 <? Z.of_nat (size X)) = true <-> exists g : string, g ∈ X.
Proof.
  rewrite Z.ltb_lt. split.
  - intros H. apply size_pos_elem_of. lia.
  - intros [g Hg]. enough (size X <> 0%nat) by lia.
    apply size_non_empty_iff. intros He. rewrite He in Hg.
    exact (not_elem_of_empty g Hg).
Qed.

Lemma range_in_any_group_common (r : SensorRegisterRange)
    (active_groups : gset string) :
  SensorRegisterRange_in_any_group r active_groups = true
  <-> exists g : string, g ∈ group r /\ g ∈ active_groups.
Proof.
  unfold SensorRegisterRange_in_any_group. rewrite size_pos_iff.
  split; intros [g Hg]; exists g; set_solver.
Qed.

(** X13. A range is in the active groups exactly when it shares a group
    name with them; so no range is in an empty set of active groups, and
    activating more groups never takes a range out. *)
Theorem range_in_any_group_iff (r : SensorRegisterRange)
    (active_groups : gset string) :
  (SensorRegisterRange_in_any_group r active_groups = true
   <-> exists g : string, g ∈ group r /\ g ∈ active_groups)
  /\ SensorRegisterRange_in_any_group r ∅ = false
  /\ (forall more : gset string,
         SensorRegisterRange_in_any_group r active_groups = true ->
         SensorRegisterRange_in_any_group r (active_groups ∪ more) = true).
Proof.
  split; [apply range_in_any_group_common|]. split.
  - apply not_true_is_false. intros H.
    apply range_in_any_group_common in H as [g [_ Hg]].
    exact (not_elem_of_empty g Hg).
  - intros more H. apply range_in_any_group_common in H as [g [Hr Ha]].
    apply range_in_any_group_common. exists g. set_solver.
Qed.

(** X14. A sensor constructed with groups is in the active groups exactly
    when one of its groups is active, and a daily-reset wrapper is in them
    exactly when its delegate is. *)
Theorem sensor_in_any_group_iff (s : Sensor) (active_groups : gset string) :
  groups (named s) <> [] ->
  (in_any_group s active_groups = true
   <-> exists g : string, In g (groups (named s)) /\ g ∈ active_groups)
  /\ (forall (last : option float) (ts : datetime),
         DailyResetSensor_in_any_group
           {| delegate := s; last_value := last; last_value_ts := ts |}
           active_groups
         = in_any_group s active_groups).
Proof.
  intros Hne. split; [|reflexivity].
  unfold in_any_group, NamedSensor_in_any_group.
  destruct (groups (named s)) as [|g0 gs] eqn:E; [contradiction|].
  rewrite size_pos_iff. split.
  - intros [g Hg]. apply elem_of_intersection in Hg as [Ha Hg].
    apply elem_of_list_to_set, list_elem_of_In in Hg. exists g. split; assumption.
  - intros [g [Hg Ha]]. exists g. apply elem_of_intersection. split; [exact Ha|].
    apply elem_of_list_to_set, list_elem_of_In. exact Hg.
Qed.

Lemma sensor_in_any_group_iff_witness :
  groups (named (Single tenths_sensor)) <> []
  /\ (exists g : string,
         In g (groups (named (Single tenths_sensor)))
         /\ g ∈ ({[ "micro"; "string" ]} : gset string))
  /\ in_any_group (Single tenths_sensor) {[ "micro"; "string" ]} = true.
Proof.
  assert (Hne : groups (named (Single tenths_sensor)) <> []) by discriminate.
  assert (Hg : exists g : string,
             In g (groups (named (Single tenths_sensor)))
             /\ g ∈ ({[ "micro"; "string" ]} : gset string))
    by (exists "micro"; split; [now left | set_solver]).
  split; [exact Hne|]. split; [exact Hg|].
  exact (proj2 (proj1 (sensor_in_any_group_iff (Single tenths_sensor)
                         {[ "micro"; "string" ]} Hne)) Hg).
Defined.

(** ** Filtering and deduplication *)

Lemma filter_sublist {A : Type} (f : A -> bool) (l : list A) :
  sublist (List.filter f l) l.
Proof.
  induction l as [|x l IH]; [constructor|].
  cbn [List.filter]. destruct (f x); constructor; exact IH.
Qed.

Lemma range_shares_group (r : SensorRegisterRange) (metric_groups : list string) :
  SensorRegisterRange_in_any_group r (list_to_set metric_groups) = true
  <-> exists g : string, g ∈ group r /\ In g metric_groups.
Proof.
  rewrite range_in_any_group_common.
  split; intros [g [Hg Hm]]; exists g; (split; [exact Hg|]).
  - apply elem_of_list_to_set in Hm. apply list_elem_of_In. exact Hm.
  - apply elem_of_list_to_set. apply list_elem_of_In. exact Hm.
Qed.

(** X15. The filter goes through the catalog in order and decides on each
    entry by itself: a range that shares a group name with
    [metric_groups] is kept at its place, repeated entries included, any
    other is dropped, and nothing is added; with no metric group it keeps
    nothing. *)
Theorem filter_reg_ranges_spec (metric_groups : list string) :
  filter_reg_ranges [] metric_groups = []
  /\ (forall (r : SensorRegisterRange) (rest : list SensorRegisterRange),
         (exists g : string, g ∈ group r /\ In g metric_groups) ->
         filter_reg_ranges (r :: rest) metric_groups
         = r :: filter_reg_ranges rest metric_groups)
  /\ (forall (r : SensorRegisterRange) (rest : list SensorRegisterRange),
         ~ (exists g : string, g ∈ group r /\ In g metric_groups) ->
         filter_reg_ranges (r :: rest) metric_groups
         = filter_reg_ranges rest metric_groups)
  /\ (forall (l1 l2 : list SensorRegisterRange),
         filter_reg_ranges (l1 ++ l2) metric_groups
         = filter_reg_ranges l1 metric_groups
           ++ filter_reg_ranges l2 metric_groups)
  /\ (forall reg_ranges : list SensorRegisterRange,
         filter_reg_ranges reg_ranges [] = []).
Proof.
  unfold filter_reg_ranges. split; [reflexivity|]. split; [|split; [|split]].
  - intros r rest Hg. apply range_shares_group in Hg.
    cbn [List.filter]. rewrite Hg. reflexivity.
  - intros r rest Hg. cbn [List.filter].
    destruct (SensorRegisterRange_in_any_group r (list_to_set metric_groups))
      eqn:E; [|reflexivity].
    exfalso. apply Hg, range_shares_group, E.
  - intros l1 l2. apply List.filter_app.
  - intros reg_ranges. induction reg_ranges as [|r l IH]; [reflexivity|].
    cbn [List.filter].
    replace (SensorRegisterRange_in_any_group r (list_to_set [])) with false;
      [exact IH|].
    symmetry. apply not_true_is_false. intros H.
    apply range_in_any_group_common in H as [g [_ Hg]].
    exact (not_elem_of_empty g Hg).
Qed.

Lemma same_range_bounds (r x : SensorRegisterRange) :
  SensorRegisterRange_is_same_range r x = true <-> bounds r = bounds x.
Proof.
  unfold SensorRegisterRange_is_same_range, bounds.
  rewrite andb_true_iff, !Z.eqb_eq. split; [intros [-> ->]; reflexivity|].
  intros [= -> ->]. split; reflexivity.
Qed.

Lemma dedupe_props (n : nat) :
  forall l : list SensorRegisterRange,
    (length l <= n)%nat ->
    sublist (remove_duplicated_reg_ranges l) l
    /\ NoDup (map bounds (remove_duplicated_reg_ranges l))
    /\ (forall r : SensorRegisterRange,
           In r l -> In (bounds r) (map bounds (remove_duplicated_reg_ranges l))).
Proof.
  induction n as [|n IH]; intros l Hlen.
  - destruct l; [|simpl in Hlen; lia].
    repeat split; [constructor | constructor | intros r []].
  - destruct l as [|r l]; [repeat split; [constructor | constructor | intros r []]|].
    rewrite remove_duplicated_cons.
    set (F := List.filter (fun x => negb (SensorRegisterRange_is_same_range r x)) l).
    assert (HF : (length F <= n)%nat).
    { pose proof (filter_length_le
                    (fun x => negb (SensorRegisterRange_is_same_range r x)) l).
      simpl in Hlen. subst F. lia. }
    destruct (IH F HF) as (Hsub & Hnd & Hcov). split; [|split].
    + constructor. etransitivity; [exact Hsub | apply filter_sublist].
    + cbn [map]. apply NoDup_cons. split; [|exact Hnd].
      intros Hin. apply list_elem_of_In, in_map_iff in Hin as [x [Hb Hx]].
      assert (HxF : In x F).
      { apply list_elem_of_In. eapply elem_of_sublist; [|exact Hsub].
        apply list_elem_of_In. exact Hx. }
      apply filter_In in HxF as [_ Hneg]. apply negb_true_iff in Hneg.
      symmetry in Hb. apply same_range_bounds in Hb. congruence.
    + intros x [<-|Hx]; [now left|]. cbn [map].
      destruct (SensorRegisterRange_is_same_range r x) eqn:E.
      * left. apply same_range_bounds. exact E.
      * right. apply Hcov. apply filter_In. split; [exact Hx|].
        rewrite E. reflexivity.
Qed.

(** X16. Deduplication only removes ranges: what it keeps is a
    subsequence of its input, no two kept ranges have the same bounds, and
    the bounds of every input range are those of a kept range. *)
Theorem remove_duplicated_reg_ranges_spec (reg_ranges : list SensorRegisterRange) :
  sublist (remove_duplicated_reg_ranges reg_ranges) reg_ranges
  /\ NoDup (map bounds (remove_duplicated_reg_ranges reg_ranges))
  /\ (forall r : SensorRegisterRange,
         In r reg_ranges ->
         exists kept : SensorRegisterRange,
           In kept (remove_duplicated_reg_ranges reg_ranges)
           /\ first_reg_address kept = first_reg_address r
           /\ last_reg_address kept = last_reg_address r).
Proof.
  destruct (dedupe_props (length reg_ranges) reg_ranges (Nat.le_refl _))
    as (Hsub & Hnd & Hcov).
  split; [exact Hsub|]. split; [exact Hnd|].
  intros r Hr. apply Hcov, in_map_iff in Hr as [kept [Hb Hk]].
  exists kept. injection Hb as H1 H2. repeat split; assumption.
Qed.

(** ** Splitting and the whole consolidation *)

Lemma split_short (r : SensorRegisterRange) (n : Z) :
  0 < n -> 1 <= SensorRegisterRange_length r <= n ->
  SensorRegisterRange_split r n = Ok [r].
Proof.
  intros Hn Hlen. unfold SensorRegisterRange_split, ceil_div.
  replace (n =? 0) with false by (symmetry; apply Z.eqb_neq; lia).
  replace (- SensorRegisterRange_length r / n) with (-1)
    by (apply Z.div_unique with (r := n - SensorRegisterRange_length r); lia).
  cbn [mbind result_bind mret result_ret].
  change (seqZ 0 (- (-1))) with [0]. cbn [map]. cbv zeta. do 2 f_equal.
  unfold SensorRegisterRange_length in Hlen. destruct r as [g f l].
  cbn [group first_reg_address last_reg_address] in *. f_equal; lia.
Qed.

(** X17. Splitting a well-formed range at a positive length, both below
    2^53 (where the float quotient that Python takes the ceiling of has
    the ceiling of the exact one), always returns: the sub-ranges carry
    the parent's group, are each between 1 and that length long, together
    span the parent's addresses once each and in order, and there are
    ceil(length / sub_range_len) of them; a range within the length comes
    back alone and unchanged. *)
Theorem split_sub_ranges (r : SensorRegisterRange) (n : Z) :
  0 < n < 2 ^ 53 ->
  first_reg_address r <= last_reg_address r ->
  SensorRegisterRange_length r < 2 ^ 53 ->
  exists subs : list SensorRegisterRange,
    SensorRegisterRange_split r n = Ok subs
    /\ concat (map addresses subs) = addresses r
    /\ Forall (fun s => group s = group r
                        /\ 1 <= SensorRegisterRange_length s <= n) subs
    /\ (Z.of_nat (length subs) - 1) * n < SensorRegisterRange_length r
       <= Z.of_nat (length subs) * n
    /\ (SensorRegisterRange_length r <= n -> subs = [r]).
Proof.
  intros [Hn _] Hr _.
  destruct (SensorRegisterRange_split r n) as [subs|e] eqn:Hs.
  - exists subs. destruct (split_covers r n subs Hn Hr Hs) as [Hc Hf].
    split; [reflexivity|]. split; [exact Hc|]. split; [exact Hf|]. split.
    + unfold SensorRegisterRange_split in Hs.
      destruct (ceil_div (SensorRegisterRange_length r) n) as [c|e] eqn:Hc';
        [|discriminate].
      pose proof (ceil_div_bounds _ _ _ Hn Hc') as Hb. injection Hs as <-.
      rewrite length_map, length_seqZ.
      assert (0 <= c) by (unfold SensorRegisterRange_length in Hb; nia).
      rewrite Z2Nat.id by lia. exact Hb.
    + intros Hshort. rewrite split_short in Hs;
        [congruence | exact Hn | unfold SensorRegisterRange_length in *; lia].
  - exfalso. unfold SensorRegisterRange_split, ceil_div in Hs.
    replace (n =? 0) with false in Hs by (symmetry; apply Z.eqb_neq; lia).
    discriminate Hs.
Qed.

(** The 25 registers 100..124 in spans of 10: three sub-ranges. *)
Lemma split_sub_ranges_witness :
  (0 < 10 < 2 ^ 53
   /\ first_reg_address (range_of "g1" 100 124)
      <= last_reg_address (range_of "g1" 100 124)
   /\ SensorRegisterRange_length (range_of "g1" 100 124) < 2 ^ 53)
  /\ SensorRegisterRange_split (range_of "g1" 100 124) 10
     = Ok [range_of "g1" 100 109; range_of "g1" 110 119; range_of "g1" 120 124]
  /\ exists subs : list SensorRegisterRange,
       SensorRegisterRange_split (range_of "g1" 100 124) 10 = Ok subs
       /\ concat (map addresses subs) = addresses (range_of "g1" 100 124)
       /\ Forall (fun s => group s = group (range_of "g1" 100 124)
                           /\ 1 <= SensorRegisterRange_length s <= 10) subs
       /\ (Z.of_nat (length subs) - 1) * 10
          < SensorRegisterRange_length (range_of "g1" 100 124)
          <= Z.of_nat (length subs) * 10
       /\ (SensorRegisterRange_length (range_of "g1" 100 124) <= 10 ->
           subs = [range_of "g1" 100 124]).
Proof.
  split; [unfold SensorRegisterRange_length; cbn; lia|].
  split; [vm_compute; reflexivity|].
  apply (split_sub_ranges (range_of "g1" 100 124) 10);
    unfold SensorRegisterRange_length; cbn; lia.
Defined.

Lemma split_long_from (max_range_length : Z) (l : list SensorRegisterRange) :
  forall acc : result (list SensorRegisterRange),
    fold_left
      (fun acc reg_range =>
         result ← acc;
         if SensorRegisterRange_length reg_range <=? max_range_length
         then mret (result ++ [reg_range])
         else sub ← SensorRegisterRange_split reg_range max_range_length;
              mret (result ++ sub))
      l acc
    = (result ← acc;
       pieces ← collect (map (appended max_range_length) l);
       mret (result ++ concat pieces)).
Proof.
  induction l as [|r l IH]; intros acc.
  - destruct acc as [a|e]; cbn; [rewrite app_nil_r|]; reflexivity.
  - cbn [fold_left map collect]. rewrite IH. unfold appended.
    destruct acc as [a|e]; [|reflexivity]. cbn [mbind result_bind].
    destruct (SensorRegisterRange_length r <=? max_range_length).
    + cbn [mbind result_bind mret result_ret].
      destruct (collect _) as [ps|e]; [|reflexivity].
      cbn [mbind result_bind mret result_ret concat].
      rewrite <- app_assoc. reflexivity.
    + destruct (SensorRegisterRange_split r max_range_length) as [sub|e];
        [|reflexivity].
      cbn [mbind result_bind mret result_ret].
      destruct (collect _) as [ps|e]; [|reflexivity].
      cbn [mbind result_bind mret result_ret concat].
      rewrite <- app_assoc. reflexivity.
Qed.

(** The loop appends, range by range, what [appended] gives, and stops at
    the first exception. *)
Lemma split_long_collect (l : list SensorRegisterRange) (max_range_length : Z) :
  split_long_reg_ranges l max_range_length
  = (pieces ← collect (map (appended max_range_length) l); mret (concat pieces)).
Proof.
  unfold split_long_reg_ranges. rewrite split_long_from. reflexivity.
Qed.

Lemma appended_ok (n : Z) (r : SensorRegisterRange) :
  0 < n -> first_reg_address r <= last_reg_address r ->
  exists subs : list SensorRegisterRange,
    appended n r = Ok subs
    /\ concat (map addresses subs) = addresses r
    /\ Forall (fun s => group s = group r
                        /\ 1 <= SensorRegisterRange_length s <= n) subs.
Proof.
  intros Hn Hr. unfold appended.
  destruct (SensorRegisterRange_length r <=? n) eqn:E.
  - apply Z.leb_le in E. exists [r]. split; [reflexivity|]. split.
    + cbn. apply app_nil_r.
    + repeat constructor. unfold SensorRegisterRange_length in *. lia. exact E.
  - unfold SensorRegisterRange_split, ceil_div.
    replace (n =? 0) with false by (symmetry; apply Z.eqb_neq; lia).
    cbn [mbind result_bind mret result_ret]. eexists. split; [reflexivity|].
    apply (split_covers r n); [exact Hn | exact Hr|].
    unfold SensorRegisterRange_split, ceil_div.
    replace (n =? 0) with false by (symmetry; apply Z.eqb_neq; lia).
    reflexivity.
Qed.

Lemma split_long_ok (n : Z) (u : list SensorRegisterRange) :
  0 < n ->
  Forall (fun r => first_reg_address r <= last_reg_address r) u ->
  exists res : list SensorRegisterRange,
    split_long_reg_ranges u n = Ok res
    /\ concat (map addresses res) = concat (map addresses u)
    /\ Forall (fun s => 1 <= SensorRegisterRange_length s <= n
                        /\ exists r, In r u /\ group s = group r) res.
Proof.
  intros Hn Hwf. rewrite split_long_collect.
  induction Hwf as [|r u Hr _ (res & Hres & Hc & Hf)].
  - exists []. repeat split. constructor.
  - destruct (appended_ok n r Hn Hr) as (subs & Hs & Hsc & Hsf).
    cbn [map collect]. rewrite Hs. cbn [mbind result_bind] in Hres |- *.
    destruct (collect (map (appended n) u)) as [ps|e]; [|discriminate Hres].
    cbn [mbind result_bind mret result_ret] in Hres |- *.
    injection Hres as <-. exists (subs ++ concat ps).
    split; [reflexivity|]. split.
    + cbn [map concat]. rewrite map_app, concat_app, Hsc, Hc. reflexivity.
    + apply Forall_app. split.
      * eapply Forall_impl; [exact Hsf|]. intros s [Hg Hl].
        split; [exact Hl|]. exists r. split; [now left | exact Hg].
      * eapply Forall_impl; [exact Hf|]. intros s [Hl [r' [Hin Hg]]].
        split; [exact Hl|]. exists r'. split; [now right | exact Hg].
Qed.

(** X18. With a positive [max_range_length] and a catalog of well-formed
    ranges, the limit and every length below 2^53 (where the float
    quotient that Python takes the ceiling of has the ceiling of the exact
    one), the consolidation always returns; every range of the plan is
    between 1 and [max_range_length] registers long and shares a group
    with [metric_groups]; and the plan spans, once each and in order, the
    addresses of the filtered and deduplicated catalog. *)
Theorem SensorRegisterRanges_init_ok (ranges : list SensorRegisterRange)
    (metric_groups : list string) (max_range_length : Z) :
  0 < max_range_length < 2 ^ 53 ->
  Forall (fun r => first_reg_address r <= last_reg_address r
                   /\ SensorRegisterRange_length r < 2 ^ 53) ranges ->
  exists plan : list SensorRegisterRange,
    SensorRegisterRanges_init ranges metric_groups max_range_length = Ok plan
    /\ Forall (fun s => 1 <= SensorRegisterRange_length s <= max_range_length
                        /\ SensorRegisterRange_in_any_group s
                             (list_to_set metric_groups) = true) plan
    /\ concat (map addresses plan)
       = concat (map addresses
                   (remove_duplicated_reg_ranges
                      (filter_reg_ranges ranges metric_groups))).
Proof.
  intros [Hmax _] Hwf. unfold SensorRegisterRanges_init.
  set (u := remove_duplicated_reg_ranges (filter_reg_ranges ranges metric_groups)).
  assert (Hu : forall r, In r u ->
                 In r ranges /\ SensorRegisterRange_in_any_group r
                                  (list_to_set metric_groups) = true).
  { intros r Hr.
    apply (filter_In (fun r => SensorRegisterRange_in_any_group r
                                 (list_to_set metric_groups)) r ranges).
    apply list_elem_of_In.
    eapply elem_of_sublist; [apply list_elem_of_In; exact Hr|].
    apply (dedupe_props _ _ (Nat.le_refl _)). }
  assert (Hwfu : Forall (fun r => first_reg_address r <= last_reg_address r) u).
  { apply Forall_forall. intros r Hr. apply list_elem_of_In, Hu in Hr as [Hr _].
    rewrite Forall_forall in Hwf. apply (Hwf r), list_elem_of_In, Hr. }
  destruct (split_long_ok max_range_length u Hmax Hwfu) as (plan & Hp & Hc & Hf).
  exists plan. split; [exact Hp|]. split; [|exact Hc].
  eapply Forall_impl; [exact Hf|]. intros s [Hl [r [Hr Hg]]].
  split; [exact Hl|]. unfold SensorRegisterRange_in_any_group. rewrite Hg.
  apply (Hu r Hr).
Qed.

Lemma SensorRegisterRanges_init_ok_witness :
  (0 < 10 < 2 ^ 53
   /\ Forall (fun r => first_reg_address r <= last_reg_address r
                       /\ SensorRegisterRange_length r < 2 ^ 53) sample_catalog)
  /\ exists plan : list SensorRegisterRange,
       SensorRegisterRanges_init sample_catalog ["g2"] 10 = Ok plan
       /\ Forall (fun s => 1 <= SensorRegisterRange_length s <= 10
                           /\ SensorRegisterRange_in_any_group s
                                (list_to_set ["g2"]) = true) plan
       /\ concat (map addresses plan)
          = concat (map addresses
                      (remove_duplicated_reg_ranges
                         (filter_reg_ranges sample_catalog ["g2"]))).
Proof.
  assert (Hwf : Forall (fun r => first_reg_address r <= last_reg_address r
                                 /\ SensorRegisterRange_length r < 2 ^ 53)
                       sample_catalog)
    by (repeat constructor; unfold SensorRegisterRange_length; cbn; lia).
  split; [split; [lia | exact Hwf]|].
  exact (SensorRegisterRanges_init_ok sample_catalog ["g2"] 10 ltac:(lia) Hwf).
Defined.

Lemma appended_zero (r : SensorRegisterRange) :
  appended 0 r
  = if SensorRegisterRange_length r <=? 0 then Ok [r]
    else Raise ZeroDivisionError.
Proof. unfold appended. destruct (_ <=? 0); reflexivity. Qed.

Lemma collect_appended_zero (u : list SensorRegisterRange) :
  (exists r, In r u /\ 0 < SensorRegisterRange_length r) ->
  collect (map (appended 0) u) = Raise ZeroDivisionError.
Proof.
  induction u as [|x u IH]; intros [r [Hin Hpos]]; [destruct Hin|].
  cbn [map collect]. rewrite appended_zero.
  destruct (SensorRegisterRange_length x <=? 0) eqn:E; [|reflexivity].
  apply Z.leb_le in E. cbn [mbind result_bind].
  rewrite IH; [reflexivity|]. destruct Hin as [<-|Hin]; [lia|].
  exists r. split; assumption.
Qed.

(** X19. With [max_range_length] 0 the consolidation raises
    [ZeroDivisionError] as soon as one well-formed range of the catalog
    shares a group with [metric_groups]. *)
Theorem SensorRegisterRanges_init_zero (ranges : list SensorRegisterRange)
    (metric_groups : list string) (r : SensorRegisterRange) :
  In r ranges ->
  SensorRegisterRange_in_any_group r (list_to_set metric_groups) = true ->
  first_reg_address r <= last_reg_address r ->
  SensorRegisterRanges_init ranges metric_groups 0 = Raise ZeroDivisionError.
Proof.
  intros Hin Hg Hwf. unfold SensorRegisterRanges_init.
  rewrite split_long_collect, collect_appended_zero; [reflexivity|].
  assert (Hf : In r (filter_reg_ranges ranges metric_groups))
    by (apply filter_In; split; assumption).
  destruct (dedupe_props _ (filter_reg_ranges ranges metric_groups)
              (Nat.le_refl _)) as (_ & _ & Hcov).
  apply Hcov, in_map_iff in Hf as [kept [Hb Hk]].
  exists kept. split; [exact Hk|]. injection Hb as H1 H2.
  unfold SensorRegisterRange_length. lia.
Qed.

Lemma SensorRegisterRanges_init_zero_witness :
  (In (range_of "g2" 30 45) sample_catalog
   /\ SensorRegisterRange_in_any_group (range_of "g2" 30 45)
        (list_to_set ["g2"]) = true
   /\ first_reg_address (range_of "g2" 30 45)
      <= last_reg_address (range_of "g2" 30 45))
  /\ SensorRegisterRanges_init sample_catalog ["g2"] 0 = Raise ZeroDivisionError.
Proof.
  assert (Hin : In (range_of "g2" 30 45) sample_catalog)
    by (right; right; left; reflexivity).
  assert (Hwf : first_reg_address (range_of "g2" 30 45)
                <= last_reg_address (range_of "g2" 30 45)) by (cbn; lia).
  split; [split; [exact Hin | split; [reflexivity | exact Hwf]]|].
  exact (SensorRegisterRanges_init_zero sample_catalog ["g2"]
           (range_of "g2" 30 45) Hin eq_refl Hwf).
Defined.

Lemma appended_negative (n : Z) (r : SensorRegisterRange) :
  n < 0 -> first_reg_address r <= last_reg_address r -> appended n r = Ok [].
Proof.
  intros Hn Hr. unfold appended.
  assert (Hlen : 1 <= SensorRegisterRange_length r)
    by (unfold SensorRegisterRange_length; lia).
  replace (SensorRegisterRange_length r <=? n) with false
    by (symmetry; apply Z.leb_gt; lia).
  unfold SensorRegisterRange_split, ceil_div.
  replace (n =? 0) with false by (symmetry; apply Z.eqb_neq; lia).
  cbn [mbind result_bind mret result_ret].
  rewrite seqZ_nil; [reflexivity|].
  pose proof (Z.div_mod (- SensorRegisterRange_length r) n ltac:(lia)).
  pose proof (Z.mod_neg_bound (- SensorRegisterRange_length r) n Hn). nia.
Qed.

(** X20. With a negative [max_range_length] the consolidation returns an
    empty plan for any catalog of well-formed ranges (the limit above
    -2^53 and every length below 2^53, so that the quotient is a float):
    every range counts as too long, and splitting at a negative length
    yields no sub-range. *)
Theorem SensorRegisterRanges_init_negative (ranges : list SensorRegisterRange)
    (metric_groups : list string) (max_range_length : Z) :
  - 2 ^ 53 < max_range_length < 0 ->
  Forall (fun r => first_reg_address r <= last_reg_address r
                   /\ SensorRegisterRange_length r < 2 ^ 53) ranges ->
  SensorRegisterRanges_init ranges metric_groups max_range_length = Ok [].
Proof.
  intros [_ Hmax] Hwf. unfold SensorRegisterRanges_init.
  set (u := remove_duplicated_reg_ranges (filter_reg_ranges ranges metric_groups)).
  assert (Hwfu : Forall (fun r => first_reg_address r <= last_reg_address r) u).
  { apply Forall_forall. intros r Hr. rewrite Forall_forall in Hwf.
    apply (Hwf r).
    eapply elem_of_sublist; [|apply filter_sublist]. unfold filter_reg_ranges in u.
    eapply elem_of_sublist; [exact Hr|].
    apply (dedupe_props _ _ (Nat.le_refl _)). }
  rewrite split_long_collect.
  assert (Hc : collect (map (appended max_range_length) u)
               = Ok (map (fun _ => []) u)).
  { induction Hwfu as [|r u' Hr _ IH]; [reflexivity|].
    cbn [map collect]. rewrite (appended_negative _ r Hmax Hr), IH. reflexivity. }
  rewrite Hc. cbn [mbind result_bind mret result_ret]. f_equal.
  clear. induction u as [|r u IH]; [reflexivity | exact IH].
Qed.

Lemma SensorRegisterRanges_init_negative_witness :
  (- 2 ^ 53 < -1 < 0
   /\ Forall (fun r => first_reg_address r <= last_reg_address r
                       /\ SensorRegisterRange_length r < 2 ^ 53) sample_catalog)
  /\ SensorRegisterRanges_init sample_catalog ["g1"; "g2"] (-1) = Ok [].
Proof.
  assert (Hwf : Forall (fun r => first_reg_address r <= last_reg_address r
                                 /\ SensorRegisterRange_length r < 2 ^ 53)
                       sample_catalog)
    by (repeat constructor; unfold SensorRegisterRange_length; cbn; lia).
  split; [split; [lia | exact Hwf]|].
  exact (SensorRegisterRanges_init_negative sample_catalog ["g1"; "g2"] (-1)
           ltac:(lia) Hwf).
Defined.





